(** * fs_mini: a shallow embedding of [include/fs_mini.hpp]

    The header is a thin facade over POSIX calls.  Every wrapper is embedded
    as a function over an abstract operating system (class [OS]): a world
    type, the process-global [errno], and one function per system call.
    Exceptions are an explicit [Throw] result carrying [std::system_error].
    A concrete in-memory file system ([MemFS]) instantiates the interface so
    that every statement can be run on explicit inputs. *)

From Stdlib Require Import ZArith String Ascii List Lia Bool.
From Stdlib Require Init.Byte.
From stdpp Require Import gmap strings list fin_maps.

Local Open Scope string_scope.
Local Open Scope Z_scope.

Abbreviation byte := Init.Byte.byte.

(** ** Host definitions used by the header

    [<fcntl.h>], [<sys/stat.h>] and [<errno.h>] belong to the host, not to
    the repository.  The values are the ones POSIX fixes for the permission
    bits and the ones Linux (x86-64, glibc) uses for the rest; glibc derives
    the group and other bits from the owner bits by shifting, which is kept. *)
Module Host.

Definition S_IFMT   : Z := 0xF000.
Definition S_IFSOCK : Z := 0xC000.
Definition S_IFLNK  : Z := 0xA000.
Definition S_IFREG  : Z := 0x8000.
Definition S_IFBLK  : Z := 0x6000.
Definition S_IFDIR  : Z := 0x4000.
Definition S_IFCHR  : Z := 0x2000.
Definition S_IFIFO  : Z := 0x1000.

Definition S_ISUID : Z := 0x800.
Definition S_ISGID : Z := 0x400.
Definition S_ISVTX : Z := 0x200.

Definition S_IRUSR : Z := 0x100.
Definition S_IWUSR : Z := 0x80.
Definition S_IXUSR : Z := 0x40.
Definition S_IRWXU : Z := Z.lor (Z.lor S_IRUSR S_IWUSR) S_IXUSR.

Definition S_IRGRP : Z := Z.shiftr S_IRUSR 3.
Definition S_IWGRP : Z := Z.shiftr S_IWUSR 3.
Definition S_IXGRP : Z := Z.shiftr S_IXUSR 3.
Definition S_IRWXG : Z := Z.shiftr S_IRWXU 3.

Definition S_IROTH : Z := Z.shiftr S_IRGRP 3.
Definition S_IWOTH : Z := Z.shiftr S_IWGRP 3.
Definition S_IXOTH : Z := Z.shiftr S_IXGRP 3.
Definition S_IRWXO : Z := Z.shiftr S_IRWXG 3.

Definition O_RDONLY  : Z := 0.
Definition O_WRONLY  : Z := 1.
Definition O_RDWR    : Z := 2.
Definition O_ACCMODE : Z := 3.
Definition O_CREAT   : Z := 0x40.
Definition O_EXCL    : Z := 0x80.
Definition O_TRUNC   : Z := 0x200.
Definition O_APPEND  : Z := 0x400.

Definition ENOENT  : Z := 2.
Definition EBADF   : Z := 9.
Definition EEXIST  : Z := 17.
Definition ENOTDIR : Z := 20.
Definition EISDIR  : Z := 21.
Definition EINVAL  : Z := 22.
Definition ENOTEMPTY : Z := 39.
Definition ELOOP   : Z := 40.

(** [size_t] is 64 bits wide; a conversion to it wraps around. *)
Definition SIZE_WIDTH : Z := 64.
Definition to_size_t (z : Z) : Z := z mod 2 ^ SIZE_WIDTH.

(** The fields of [struct stat] the header reads. *)
Record stat := mk_stat { st_mode : Z; st_size : Z }.

End Host.
Export Host.

(** [std::string::c_str]: the C string handed to the system call ends at
    the first NUL character of the [std::string]. *)
Fixpoint c_str (s : string) : string :=
  match s with
  | EmptyString => EmptyString
  | String c rest =>
      if Ascii.eqb c Ascii.zero then EmptyString else String c (c_str rest)
  end.

(** ** The operating system as an interface

    Each call maps the world to its C return value and the next world.
    [stat]-like calls also give the contents of the caller's [struct stat]
    after the call: on failure nothing was written to it, and the value is
    whatever the uninitialised local happens to hold.  [sys_open] takes the
    optional third (variadic) argument of [open(2)].  [sys_read] gives the
    contents of the caller's buffer after the call.  [sys_getenv] returns a
    nullable pointer, [None] for [nullptr]. *)
Class OS (W : Type) := {
  errno : W → Z;
  sys_open : string → Z → option Z → W → Z * W;
  sys_close : Z → W → Z * W;
  sys_read : Z → Z → W → (Z * list byte) * W;
  sys_write : Z → list byte → Z → W → Z * W;
  sys_stat : string → W → (Z * stat) * W;
  sys_lstat : string → W → (Z * stat) * W;
  sys_fstat : Z → W → (Z * stat) * W;
  sys_copy_file_range : Z → Z → Z → W → Z * W;
  sys_symlink : string → string → W → Z * W;
  sys_link : string → string → W → Z * W;
  sys_unlink : string → W → Z * W;
  sys_remove : string → W → Z * W;
  sys_mkdir : string → Z → W → Z * W;
  sys_rename : string → string → W → Z * W;
  sys_getenv : string → W → option string;
}.

(** ** Exceptions and the call monad *)

Inductive error_category :=
  | generic_category
  | system_category
  | iostream_category
  | future_category.

(** [std::system_error(ev, ecat, what_arg)]. *)
Record system_error := mk_system_error {
  code : Z;
  category : error_category;
  what_arg : string;
}.

Inductive result (A : Type) :=
  | Ok (a : A)
  | Throw (e : system_error).
Arguments Ok {A} a.
Arguments Throw {A} e.

Definition M (W A : Type) : Type := W → result A * W.

Definition ret {W A} (a : A) : M W A := fun w => (Ok a, w).

Definition bind {W A B} (c : M W A) (k : A → M W B) : M W B :=
  fun w =>
    match c w with
    | (Ok a, w') => k a w'
    | (Throw e, w') => (Throw e, w')
    end.

(** [throw mk]: the exception object is built in the current world. *)
Definition throw {W A} (mk : W → system_error) : M W A :=
  fun w => (Throw (mk w), w).

(** A system call never throws by itself. *)
Definition sys {W A} (call : W → A * W) : M W A :=
  fun w => let '(a, w') := call w in (Ok a, w').

(** Reading process state without changing it. *)
Definition peek {W A} (f : W → A) : M W A := fun w => (Ok (f w), w).

Notation "'let*' x ':=' c 'in' k" := (bind c (fun x => k))
  (at level 10, x pattern, c at level 100, k at level 200).

Definition is_throw {A} (r : result A) : bool :=
  match r with Throw _ => true | Ok _ => false end.

(** ** namespace fs_error *)
Module fs_error.
Section WithOS.
Context {W : Type} `{OS W}.

(** [fs_error::get]. *)
Definition get (err : string) (w : W) : system_error :=
  let eno := errno w in
  mk_system_error eno generic_category err.

End WithOS.
End fs_error.

(** ** namespace fs_omode (the members the embedded functions use) *)
Module fs_omode.
Definition append     : Z := O_APPEND.
Definition create     : Z := O_CREAT.
Definition excl       : Z := O_EXCL.
Definition readonly   : Z := O_RDONLY.
Definition read_write : Z := O_RDWR.
Definition truncate   : Z := O_TRUNC.
Definition writeonly  : Z := O_WRONLY.
End fs_omode.

(** ** namespace fs_perms *)
Module fs_perms.
Definition none         : Z := 0.

Definition owner_read   : Z := S_IRUSR.
Definition owner_write  : Z := S_IWUSR.
Definition owner_exec   : Z := S_IXUSR.
Definition owner_all    : Z := S_IRWXU.

Definition group_read   : Z := S_IRGRP.
Definition group_write  : Z := S_IWGRP.
Definition group_exec   : Z := S_IXGRP.
Definition group_all    : Z := S_IRWXG.

Definition others_read  : Z := S_IROTH.
Definition others_write : Z := S_IWOTH.
Definition others_exec  : Z := S_IXOTH.
Definition others_all   : Z := S_IRWXO.

Definition all          : Z := Z.lor (Z.lor S_IRWXU S_IRWXG) S_IRWXO.
Definition set_uid      : Z := S_ISUID.
Definition set_gid      : Z := S_ISGID.
Definition sticky_bit   : Z := S_ISVTX.
Definition mask         : Z :=
  Z.lor (Z.lor (Z.lor (Z.lor (Z.lor S_IRWXU S_IRWXG) S_IRWXO) S_ISUID) S_ISGID) S_ISVTX.
Definition unknown      : Z := 0xffff.

(** The twelve single permission bits, by name. *)
Definition single_bits : list Z :=
  [ owner_read; owner_write; owner_exec;
    group_read; group_write; group_exec;
    others_read; others_write; others_exec;
    set_uid; set_gid; sticky_bit ].
End fs_perms.

(** ** namespace fs *)
Module fs.
Section WithOS.
Context {W : Type} `{OS W}.

(** [fs::open_file(path, flags)]. *)
Definition open_file (file_path : string) (flags : Z) : M W Z :=
  let* fd := sys (sys_open (c_str file_path) flags None) in
  if fd =? -1 then throw (fs_error.get "open()") else ret fd.

(** [fs::open_file(path, flags, mode)]. *)
Definition open_file_mode (file_path : string) (flags : Z) (mode : Z) : M W Z :=
  let* fd := sys (sys_open (c_str file_path) flags (Some mode)) in
  if fd =? -1 then throw (fs_error.get "open()") else ret fd.

Definition close_file (fd : Z) : M W unit :=
  let* r := sys (sys_close fd) in
  if r =? -1 then throw (fs_error.get "close()") else ret tt.

(** [fs::read_object]: the result pairs the returned count with the
    contents of the caller's buffer [ptr] after the call. *)
Definition read_object (fd : Z) (nbytes : Z) : M W (Z * list byte) :=
  let* r := sys (sys_read fd nbytes) in
  let sz := fst r in
  if sz =? -1 then throw (fs_error.get "read()") else ret (sz, snd r).

(** [fs::write_object]: [ptr] is the caller's buffer. *)
Definition write_object (fd : Z) (ptr : list byte) (nbytes : Z) : M W Z :=
  let* sz := sys (sys_write fd ptr nbytes) in
  if sz =? -1 then throw (fs_error.get "write()") else ret sz.

(** [fs::file_size(const std::string&)]. *)
Definition file_size (path : string) : M W Z :=
  let* r := sys (sys_stat (c_str path)) in
  if fst r =? -1 then throw (fs_error.get "stat()") else ret (st_size (snd r)).

(** [fs::file_size(int)]. *)
Definition file_size_fd (fd : Z) : M W Z :=
  let* r := sys (sys_fstat fd) in
  if fst r =? -1 then throw (fs_error.get "fstat()") else ret (st_size (snd r)).

Definition is_file_exists (path : string) : M W bool :=
  let* r := sys (sys_stat (c_str path)) in
  if fst r =? -1 then
    let* eno := peek errno in
    if eno =? ENOENT then ret false else throw (fs_error.get "stat()")
  else ret (Z.land (st_mode (snd r)) S_IFMT =? S_IFREG).

Definition is_directory_exists (path : string) : M W bool :=
  let* r := sys (sys_stat (c_str path)) in
  if fst r =? -1 then
    let* eno := peek errno in
    if eno =? ENOENT then ret false else throw (fs_error.get "stat()")
  else ret (Z.land (st_mode (snd r)) S_IFMT =? S_IFDIR).

Definition is_symlink_exists (path : string) : M W bool :=
  let* r := sys (sys_lstat (c_str path)) in
  if fst r =? -1 then
    let* eno := peek errno in
    if eno =? ENOENT then ret false else throw (fs_error.get "lstat()")
  else ret (Z.land (st_mode (snd r)) S_IFMT =? S_IFLNK).

(** The [do ... while (len > 0)] loop of [fs::copy_file].  [len] and
    [c_range] are [size_t]: the call's [ssize_t] result is converted on
    assignment, [-1UL] is the largest [size_t], and the subtraction wraps.
    [None] means the loop is still running after [fuel] iterations. *)
Fixpoint copy_loop (fuel : nat) (rfd wfd len : Z) (w : W)
  : option (result unit * W) :=
  match fuel with
  | O => None
  | S fuel' =>
      let '(r, w1) := sys_copy_file_range rfd wfd len w in
      let c_range := to_size_t r in
      if c_range =? to_size_t (-1) then
        Some (Throw (fs_error.get "copy_file_range()" w1), w1)
      else
        let len' := to_size_t (len - c_range) in
        if 0 <? len' then copy_loop fuel' rfd wfd len' w1
        else Some (Ok tt, w1)
  end.

(** [fs::copy_file].  Both opens call [::open] with two arguments.  The
    test on [::fstat] is the source's: it throws when the result is not
    [-1].  The results of the two final [::close] calls are dropped. *)
Definition copy_file (target dest_path : string) (fuel : nat) (w : W)
  : option (result unit * W) :=
  let '(rfd, w1) := sys_open (c_str target) fs_omode.readonly None w in
  if rfd =? -1 then Some (Throw (fs_error.get "open()" w1), w1) else
  let '(wfd, w2) :=
    sys_open (c_str dest_path) (Z.lor fs_omode.writeonly fs_omode.create) None w1 in
  if wfd =? -1 then Some (Throw (fs_error.get "open()" w2), w2) else
  let '((r, st), w3) := sys_fstat rfd w2 in
  if negb (r =? -1) then Some (Throw (fs_error.get "fstat()" w3), w3) else
  let len := to_size_t (st_size st) in
  match copy_loop fuel rfd wfd len w3 with
  | None => None
  | Some (Throw e, w4) => Some (Throw e, w4)
  | Some (Ok _, w4) =>
      let '(_, w5) := sys_close rfd w4 in
      let '(_, w6) := sys_close wfd w5 in
      Some (Ok tt, w6)
  end.

Definition create_symlink (target link_path : string) : M W unit :=
  let* r := sys (sys_symlink (c_str target) (c_str link_path)) in
  if r =? -1 then throw (fs_error.get "symlink()") else ret tt.

Definition create_hardlink (old_path new_path : string) : M W unit :=
  let* r := sys (sys_link (c_str old_path) (c_str new_path)) in
  if r =? -1 then throw (fs_error.get "link()") else ret tt.

Definition get_permissions (file : string) : M W Z :=
  let* r := sys (sys_stat (c_str file)) in
  if fst r =? -1 then throw (fs_error.get "stat()") else ret (st_mode (snd r)).

Definition remove_file (file : string) : M W unit :=
  let* r := sys (sys_unlink (c_str file)) in
  if r =? -1 then throw (fs_error.get "unlink()") else ret tt.

Definition remove_empty_directory (dir : string) : M W unit :=
  let* r := sys (sys_remove (c_str dir)) in
  if r =? -1 then throw (fs_error.get "remove()") else ret tt.

Definition create_directory (dir : string) (mode : Z) : M W unit :=
  let* r := sys (sys_mkdir (c_str dir) mode) in
  if r =? -1 then throw (fs_error.get "mkdir()") else ret tt.

Definition rename_path (old_path new_path : string) : M W unit :=
  let* r := sys (sys_rename (c_str old_path) (c_str new_path)) in
  if r =? -1 then throw (fs_error.get "rename()") else ret tt.

Definition is_env_exists (key : string) : M W bool :=
  let* p := peek (sys_getenv (c_str key)) in
  ret (match p with Some _ => true | None => false end).

Definition current_directory : M W string :=
  let* p := peek (sys_getenv "PWD") in
  match p with
  | None => throw (fs_error.get "getenv()")
  | Some v => ret v
  end.

Definition read_env (key : string) : M W string :=
  let* p := peek (sys_getenv (c_str key)) in
  match p with
  | None => throw (fs_error.get "getenv()")
  | Some v => ret v
  end.

Definition is_file_match (file : string) (type : Z) : M W bool :=
  let* r := sys (sys_lstat (c_str file)) in
  if fst r =? -1 then throw (fs_error.get "lstat()")
  else ret (Z.land (st_mode (snd r)) S_IFMT =? type).

Definition is_block_file (loc : string) : M W bool := is_file_match loc S_IFBLK.
Definition is_character_file (loc : string) : M W bool := is_file_match loc S_IFCHR.
Definition is_directory (loc : string) : M W bool := is_file_match loc S_IFDIR.
Definition is_fifo (loc : string) : M W bool := is_file_match loc S_IFIFO.
Definition is_pipe (loc : string) : M W bool := is_fifo loc.
Definition is_symlink (loc : string) : M W bool := is_file_match loc S_IFLNK.
Definition is_regular_file (loc : string) : M W bool := is_file_match loc S_IFREG.
Definition is_socket (loc : string) : M W bool := is_file_match loc S_IFSOCK.

Definition get_file_type (file : string) : M W Z :=
  let* r := sys (sys_lstat (c_str file)) in
  if fst r =? -1 then throw (fs_error.get "lstat()")
  else ret (Z.land (st_mode (snd r)) S_IFMT).

End WithOS.
End fs.

(** ** An in-memory operating system

    A small executable instance of [OS]: names map to inodes, inodes hold
    regular files, directories, symbolic links or special files, open file
    descriptions carry an offset, and one transfer moves at most [w_chunk]
    bytes.  Permission checks are left out (the process runs privileged),
    and names are whole paths: a directory is non-empty when some name
    extends it with a slash. *)
Module MemFS.

Inductive node :=
  | Reg (perm : Z) (data : list byte)
  | Dir (perm : Z)
  | Lnk (target : string)
  | Special (type : Z) (perm : Z).

Record ofd := mk_ofd { ofd_ino : Z; ofd_pos : nat; ofd_flags : Z }.

Record world := mk_world {
  w_errno : Z;
  w_names : gmap string Z;
  w_inodes : gmap Z node;
  w_fds : gmap Z ofd;
  w_env : gmap string string;
  w_chunk : nat;
  (** what an unwritten [struct stat] on the stack holds *)
  w_junk : stat;
  (** what [open] reads as mode when the caller passed none *)
  w_junk_mode : Z;
  (** fault injection: the [errno] with which [fstat] is made to fail *)
  w_fstat_error : option Z;
}.

Definition set_errno (e : Z) (w : world) : world :=
  mk_world e (w_names w) (w_inodes w) (w_fds w) (w_env w) (w_chunk w)
           (w_junk w) (w_junk_mode w) (w_fstat_error w).
Definition set_names (n : gmap string Z) (w : world) : world :=
  mk_world (w_errno w) n (w_inodes w) (w_fds w) (w_env w) (w_chunk w)
           (w_junk w) (w_junk_mode w) (w_fstat_error w).
Definition set_inodes (i : gmap Z node) (w : world) : world :=
  mk_world (w_errno w) (w_names w) i (w_fds w) (w_env w) (w_chunk w)
           (w_junk w) (w_junk_mode w) (w_fstat_error w).
Definition set_fds (f : gmap Z ofd) (w : world) : world :=
  mk_world (w_errno w) (w_names w) (w_inodes w) f (w_env w) (w_chunk w)
           (w_junk w) (w_junk_mode w) (w_fstat_error w).

Definition fail (e : Z) (w : world) : Z * world := (-1, set_errno e w).

(** The lowest key from [from] on that [m] does not use. *)
Fixpoint find_free {A} (n : nat) (from : Z) (m : gmap Z A) : Z :=
  match n with
  | O => from
  | S n' =>
      match m !! from with
      | None => from
      | Some _ => find_free n' (from + 1) m
      end
  end.

Definition fresh_key {A} (from : Z) (m : gmap Z A) : Z :=
  find_free (size m) from m.

Definition lookup_name (w : world) (p : string) : option (Z * node) :=
  match w_names w !! p with
  | None => None
  | Some ino =>
      match w_inodes w !! ino with
      | None => None
      | Some n => Some (ino, n)
      end
  end.

(** Path resolution that follows symbolic links, at most [hops] of them. *)
Fixpoint resolve (hops : nat) (w : world) (p : string) : Z + (Z * node) :=
  match lookup_name w p with
  | None => inl ENOENT
  | Some (ino, Lnk t) =>
      match hops with
      | O => inl ELOOP
      | S h => resolve h w t
      end
  | Some (ino, n) => inr (ino, n)
  end.

Definition max_hops : nat := 40.

Definition stat_of (n : node) : stat :=
  match n with
  | Reg perm data => mk_stat (Z.lor S_IFREG perm) (Z.of_nat (length data))
  | Dir perm => mk_stat (Z.lor S_IFDIR perm) 4096
  | Lnk t => mk_stat (Z.lor S_IFLNK 0x1ff) (Z.of_nat (String.length t))
  | Special type perm => mk_stat (Z.lor type perm) 0
  end.

Definition mem_stat (p : string) (w : world) : (Z * stat) * world :=
  match resolve max_hops w p with
  | inl e => ((-1, w_junk w), set_errno e w)
  | inr (_, n) => ((0, stat_of n), w)
  end.

Definition mem_lstat (p : string) (w : world) : (Z * stat) * world :=
  match lookup_name w p with
  | None => ((-1, w_junk w), set_errno ENOENT w)
  | Some (_, n) => ((0, stat_of n), w)
  end.

Definition mem_fstat (fd : Z) (w : world) : (Z * stat) * world :=
  match w_fstat_error w with
  | Some e => ((-1, w_junk w), set_errno e w)
  | None =>
      match w_fds w !! fd with
      | None => ((-1, w_junk w), set_errno EBADF w)
      | Some o =>
          match w_inodes w !! ofd_ino o with
          | None => ((-1, w_junk w), set_errno EBADF w)
          | Some n => ((0, stat_of n), w)
          end
      end
  end.

Definition has_flag (flags bit : Z) : bool := negb (Z.land flags bit =? 0).
Definition accmode (flags : Z) : Z := Z.land flags O_ACCMODE.

Definition alloc_fd (ino : Z) (flags : Z) (w : world) : Z * world :=
  let fd := fresh_key 3 (w_fds w) in
  (fd, set_fds (<[fd := mk_ofd ino 0 flags]> (w_fds w)) w).

Definition mem_open (p : string) (flags : Z) (mode : option Z) (w : world)
  : Z * world :=
  match resolve max_hops w p with
  | inr (ino, Reg perm data) =>
      if has_flag flags O_CREAT && has_flag flags O_EXCL then fail EEXIST w
      else if has_flag flags O_TRUNC && negb (accmode flags =? O_RDONLY) then
        alloc_fd ino flags (set_inodes (<[ino := Reg perm []]> (w_inodes w)) w)
      else alloc_fd ino flags w
  | inr (ino, Dir _) =>
      if accmode flags =? O_RDONLY then alloc_fd ino flags w else fail EISDIR w
  | inr (ino, _) => alloc_fd ino flags w
  | inl e =>
      match w_names w !! p with
      | None =>
          if has_flag flags O_CREAT then
            let perm := Z.land (default (w_junk_mode w) mode) 0xfff in
            let ino := fresh_key 1 (w_inodes w) in
            alloc_fd ino flags
              (set_names (<[p := ino]> (w_names w))
                 (set_inodes (<[ino := Reg perm []]> (w_inodes w)) w))
          else fail e w
      | Some _ => fail e w
      end
  end.

Definition mem_close (fd : Z) (w : world) : Z * world :=
  match w_fds w !! fd with
  | None => fail EBADF w
  | Some _ => (0, set_fds (delete fd (w_fds w)) w)
  end.

(** Overwrite [data] in place with [src] from offset [pos] on, growing the
    file where [src] runs past its end. *)
Definition splice (pos : nat) (src data : list byte) : list byte :=
  take pos data ++ replicate (pos - length data) Byte.x00
    ++ src ++ drop (pos + length src) data.

Definition set_pos (fd : Z) (o : ofd) (pos : nat) (w : world) : world :=
  set_fds (<[fd := mk_ofd (ofd_ino o) pos (ofd_flags o)]> (w_fds w)) w.

Definition mem_read (fd : Z) (nbytes : Z) (w : world)
  : (Z * list byte) * world :=
  match w_fds w !! fd with
  | None => ((-1, []), set_errno EBADF w)
  | Some o =>
      if accmode (ofd_flags o) =? O_WRONLY then ((-1, []), set_errno EBADF w)
      else
        match w_inodes w !! ofd_ino o with
        | Some (Reg _ data) =>
            let want := Nat.min (Z.to_nat nbytes) (w_chunk w) in
            let got := take want (drop (ofd_pos o) data) in
            ((Z.of_nat (length got), got),
             set_pos fd o (ofd_pos o + length got)%nat w)
        | Some (Dir _) => ((-1, []), set_errno EISDIR w)
        | _ => ((-1, []), set_errno EINVAL w)
        end
  end.

Definition mem_write (fd : Z) (buf : list byte) (nbytes : Z) (w : world)
  : Z * world :=
  match w_fds w !! fd with
  | None => fail EBADF w
  | Some o =>
      if accmode (ofd_flags o) =? O_RDONLY then fail EBADF w
      else
        match w_inodes w !! ofd_ino o with
        | Some (Reg perm data) =>
            let want := Nat.min (Z.to_nat nbytes) (w_chunk w) in
            let src := take want buf in
            let pos :=
              if has_flag (ofd_flags o) O_APPEND then length data
              else ofd_pos o in
            (Z.of_nat (length src),
             set_pos fd o (pos + length src)%nat
               (set_inodes
                  (<[ofd_ino o := Reg perm (splice pos src data)]> (w_inodes w))
                  w))
        | _ => fail EINVAL w
        end
  end.

Definition mem_copy_file_range (rfd wfd : Z) (len : Z) (w : world)
  : Z * world :=
  match w_fds w !! rfd, w_fds w !! wfd with
  | Some ro, Some wo =>
      if (accmode (ofd_flags ro) =? O_WRONLY)
         || (accmode (ofd_flags wo) =? O_RDONLY)
         || has_flag (ofd_flags wo) O_APPEND
      then fail EBADF w
      else
        match w_inodes w !! ofd_ino ro, w_inodes w !! ofd_ino wo with
        | Some (Reg _ rdata), Some (Reg wperm wdata) =>
            let want := Nat.min (Z.to_nat len) (w_chunk w) in
            let src := take want (drop (ofd_pos ro) rdata) in
            let w1 :=
              set_inodes
                (<[ofd_ino wo := Reg wperm (splice (ofd_pos wo) src wdata)]>
                   (w_inodes w)) w in
            let w2 := set_pos rfd ro (ofd_pos ro + length src)%nat w1 in
            let w3 := set_pos wfd wo (ofd_pos wo + length src)%nat w2 in
            (Z.of_nat (length src), w3)
        | _, _ => fail EINVAL w
        end
  | _, _ => fail EBADF w
  end.

Definition mem_symlink (target link_path : string) (w : world) : Z * world :=
  match w_names w !! link_path with
  | Some _ => fail EEXIST w
  | None =>
      let ino := fresh_key 1 (w_inodes w) in
      (0, set_names (<[link_path := ino]> (w_names w))
            (set_inodes (<[ino := Lnk target]> (w_inodes w)) w))
  end.

Definition mem_link (old_path new_path : string) (w : world) : Z * world :=
  match lookup_name w old_path, w_names w !! new_path with
  | None, _ => fail ENOENT w
  | Some _, Some _ => fail EEXIST w
  | Some (_, Dir _), None => fail EINVAL w
  | Some (ino, _), None => (0, set_names (<[new_path := ino]> (w_names w)) w)
  end.

Definition mem_unlink (p : string) (w : world) : Z * world :=
  match lookup_name w p with
  | None => fail ENOENT w
  | Some (_, Dir _) => fail EISDIR w
  | Some _ => (0, set_names (delete p (w_names w)) w)
  end.

Definition has_entries (p : string) (w : world) : bool :=
  existsb (fun kv => String.prefix (p ++ "/") (fst kv)) (map_to_list (w_names w)).

Definition mem_remove (p : string) (w : world) : Z * world :=
  match lookup_name w p with
  | None => fail ENOENT w
  | Some (_, Dir _) =>
      if has_entries p w then fail ENOTEMPTY w
      else (0, set_names (delete p (w_names w)) w)
  | Some _ => (0, set_names (delete p (w_names w)) w)
  end.

Definition mem_mkdir (p : string) (mode : Z) (w : world) : Z * world :=
  match w_names w !! p with
  | Some _ => fail EEXIST w
  | None =>
      let ino := fresh_key 1 (w_inodes w) in
      (0, set_names (<[p := ino]> (w_names w))
            (set_inodes (<[ino := Dir (Z.land mode 0xfff)]> (w_inodes w)) w))
  end.

(** The name [k] after the directory [old_path] became [new_path]. *)
Definition moved (old_path new_path k : string) : string :=
  let pre := old_path ++ "/" in
  if String.prefix pre k then
    new_path ++ "/" ++
      String.substring (String.length pre) (String.length k - String.length pre) k
  else k.

Definition mem_rename (old_path new_path : string) (w : world) : Z * world :=
  match lookup_name w old_path with
  | None => fail ENOENT w
  | Some (ino, Dir _) =>
      match w_names w !! new_path with
      | Some _ => fail EEXIST w
      | None =>
          let kvs := map_to_list (delete old_path (w_names w)) in
          let kvs' := map (fun kv => (moved old_path new_path (fst kv), snd kv)) kvs in
          (0, set_names (<[new_path := ino]> (list_to_map kvs')) w)
      end
  | Some (ino, _) =>
      (0, set_names (<[new_path := ino]> (delete old_path (w_names w))) w)
  end.

Definition mem_getenv (key : string) (w : world) : option string :=
  w_env w !! key.

#[export] Instance mem_os : OS world := {|
  errno := w_errno;
  sys_open := mem_open;
  sys_close := mem_close;
  sys_read := mem_read;
  sys_write := mem_write;
  sys_stat := mem_stat;
  sys_lstat := mem_lstat;
  sys_fstat := mem_fstat;
  sys_copy_file_range := mem_copy_file_range;
  sys_symlink := mem_symlink;
  sys_link := mem_link;
  sys_unlink := mem_unlink;
  sys_remove := mem_remove;
  sys_mkdir := mem_mkdir;
  sys_rename := mem_rename;
  sys_getenv := mem_getenv;
|}.

(** The content of the regular file that [p] names, links followed. *)
Definition content (p : string) (w : world) : option (list byte) :=
  match resolve max_hops w p with
  | inr (_, Reg _ data) => Some data
  | _ => None
  end.

End MemFS.

(** ** Tables over the public operations *)

(** The three existence checks. *)
Inductive exists_pred := EFile | EDirectory | ESymlink.

(** The eight type predicates built on [fs::is_file_match]. *)
Inductive type_pred :=
  | PBlock | PCharacter | PDirectory | PFifo | PPipe
  | PSymlink | PRegular | PSocket.

(** What the caller gets back from an operation. *)
Inductive value :=
  | VUnit
  | VInt (z : Z)
  | VBool (b : bool)
  | VStr (s : string)
  | VData (sz : Z) (buf : list byte).

(** One constructor per public function of namespace [fs]. *)
Inductive operation :=
  | op_open_file (path : string) (flags : Z)
  | op_open_file_mode (path : string) (flags mode : Z)
  | op_close_file (fd : Z)
  | op_read_object (fd nbytes : Z)
  | op_write_object (fd : Z) (ptr : list byte) (nbytes : Z)
  | op_file_size (path : string)
  | op_file_size_fd (fd : Z)
  | op_exists (p : exists_pred) (path : string)
  | op_copy_file (target dest_path : string)
  | op_create_symlink (target link_path : string)
  | op_create_hardlink (old_path new_path : string)
  | op_get_permissions (file : string)
  | op_remove_file (file : string)
  | op_remove_empty_directory (dir : string)
  | op_create_directory (dir : string) (mode : Z)
  | op_rename_path (old_path new_path : string)
  | op_is_env_exists (key : string)
  | op_current_directory
  | op_read_env (key : string)
  | op_is_file_match (file : string) (type : Z)
  | op_type_pred (p : type_pred) (loc : string)
  | op_get_file_type (file : string).

(** The OS calls an operation makes, as the labels it passes to
    [fs_error::get]. *)
Definition labels (o : operation) : list string :=
  match o with
  | op_open_file _ _ | op_open_file_mode _ _ _ => ["open()"]
  | op_close_file _ => ["close()"]
  | op_read_object _ _ => ["read()"]
  | op_write_object _ _ _ => ["write()"]
  | op_file_size _ | op_get_permissions _ => ["stat()"]
  | op_file_size_fd _ => ["fstat()"]
  | op_exists ESymlink _ => ["lstat()"]
  | op_exists _ _ => ["stat()"]
  | op_copy_file _ _ => ["open()"; "fstat()"; "copy_file_range()"]
  | op_create_symlink _ _ => ["symlink()"]
  | op_create_hardlink _ _ => ["link()"]
  | op_remove_file _ => ["unlink()"]
  | op_remove_empty_directory _ => ["remove()"]
  | op_create_directory _ _ => ["mkdir()"]
  | op_rename_path _ _ => ["rename()"]
  | op_is_env_exists _ => []
  | op_current_directory | op_read_env _ => ["getenv()"]
  | op_is_file_match _ _ | op_type_pred _ _ | op_get_file_type _ => ["lstat()"]
  end.

(** The type constant each type predicate passes to [is_file_match]. *)
Definition type_const (p : type_pred) : Z :=
  match p with
  | PBlock => S_IFBLK
  | PCharacter => S_IFCHR
  | PDirectory => S_IFDIR
  | PFifo | PPipe => S_IFIFO
  | PSymlink => S_IFLNK
  | PRegular => S_IFREG
  | PSocket => S_IFSOCK
  end.

(** The type each existence check looks for. *)
Definition wanted_type (p : exists_pred) : Z :=
  match p with
  | EFile => S_IFREG
  | EDirectory => S_IFDIR
  | ESymlink => S_IFLNK
  end.

(** Whether an existence check is meant to follow symbolic links. *)
Definition follows (p : exists_pred) : bool :=
  match p with
  | EFile | EDirectory => true
  | ESymlink => false
  end.

Section Dispatch.
Context {W : Type} `{OS W}.

Definition run_exists (p : exists_pred) : string → M W bool :=
  match p with
  | EFile => fs.is_file_exists
  | EDirectory => fs.is_directory_exists
  | ESymlink => fs.is_symlink_exists
  end.

Definition run_pred (p : type_pred) : string → M W bool :=
  match p with
  | PBlock => fs.is_block_file
  | PCharacter => fs.is_character_file
  | PDirectory => fs.is_directory
  | PFifo => fs.is_fifo
  | PPipe => fs.is_pipe
  | PSymlink => fs.is_symlink
  | PRegular => fs.is_regular_file
  | PSocket => fs.is_socket
  end.

(** [stat(2)] follows symbolic links, [lstat(2)] does not. *)
Definition stat_call (follow : bool) : string → W → (Z * stat) * W :=
  if follow then sys_stat else sys_lstat.

Definition stat_label (follow : bool) : string :=
  if follow then "stat()" else "lstat()".

Definition lift {A} (inj : A → value) (c : M W A) (w : W)
  : option (result value * W) :=
  match c w with
  | (Ok a, w') => Some (Ok (inj a), w')
  | (Throw e, w') => Some (Throw e, w')
  end.

Definition unit_value (_ : unit) : value := VUnit.
Definition data_value (r : Z * list byte) : value := VData (fst r) (snd r).

(** Running an operation; [fuel] bounds the loop of [copy_file]. *)
Definition run_op (fuel : nat) (o : operation) (w : W)
  : option (result value * W) :=
  match o with
  | op_open_file p f => lift VInt (fs.open_file p f) w
  | op_open_file_mode p f m => lift VInt (fs.open_file_mode p f m) w
  | op_close_file fd => lift unit_value (fs.close_file fd) w
  | op_read_object fd n => lift data_value (fs.read_object fd n) w
  | op_write_object fd ptr n => lift VInt (fs.write_object fd ptr n) w
  | op_file_size p => lift VInt (fs.file_size p) w
  | op_file_size_fd fd => lift VInt (fs.file_size_fd fd) w
  | op_exists p path => lift VBool (run_exists p path) w
  | op_copy_file t d =>
      match fs.copy_file t d fuel w with
      | None => None
      | Some (Ok _, w') => Some (Ok VUnit, w')
      | Some (Throw e, w') => Some (Throw e, w')
      end
  | op_create_symlink t l => lift unit_value (fs.create_symlink t l) w
  | op_create_hardlink o n => lift unit_value (fs.create_hardlink o n) w
  | op_get_permissions f => lift VInt (fs.get_permissions f) w
  | op_remove_file f => lift unit_value (fs.remove_file f) w
  | op_remove_empty_directory d => lift unit_value (fs.remove_empty_directory d) w
  | op_create_directory d m => lift unit_value (fs.create_directory d m) w
  | op_rename_path o n => lift unit_value (fs.rename_path o n) w
  | op_is_env_exists k => lift VBool (fs.is_env_exists k) w
  | op_current_directory => lift VStr fs.current_directory w
  | op_read_env k => lift VStr (fs.read_env k) w
  | op_is_file_match f t => lift VBool (fs.is_file_match f t) w
  | op_type_pred p loc => lift VBool (run_pred p loc) w
  | op_get_file_type f => lift VInt (fs.get_file_type f) w
  end.

(** The one OS call an operation makes, as the change it brings to the
    world; [getenv] changes nothing.  [copy_file] makes several calls and
    has no entry. *)
Definition the_call (o : operation) : option (W → W) :=
  match o with
  | op_open_file p f => Some (fun w => snd (sys_open (c_str p) f None w))
  | op_open_file_mode p f m =>
      Some (fun w => snd (sys_open (c_str p) f (Some m) w))
  | op_close_file fd => Some (fun w => snd (sys_close fd w))
  | op_read_object fd n => Some (fun w => snd (sys_read fd n w))
  | op_write_object fd ptr n => Some (fun w => snd (sys_write fd ptr n w))
  | op_file_size p | op_get_permissions p =>
      Some (fun w => snd (sys_stat (c_str p) w))
  | op_file_size_fd fd => Some (fun w => snd (sys_fstat fd w))
  | op_exists p path =>
      Some (fun w => snd (stat_call (follows p) (c_str path) w))
  | op_copy_file _ _ => None
  | op_create_symlink t l =>
      Some (fun w => snd (sys_symlink (c_str t) (c_str l) w))
  | op_create_hardlink o n =>
      Some (fun w => snd (sys_link (c_str o) (c_str n) w))
  | op_remove_file f => Some (fun w => snd (sys_unlink (c_str f) w))
  | op_remove_empty_directory d => Some (fun w => snd (sys_remove (c_str d) w))
  | op_create_directory d m => Some (fun w => snd (sys_mkdir (c_str d) m w))
  | op_rename_path o n =>
      Some (fun w => snd (sys_rename (c_str o) (c_str n) w))
  | op_is_env_exists _ | op_current_directory | op_read_env _ =>
      Some (fun w => w)
  | op_is_file_match f _ | op_type_pred _ f | op_get_file_type f =>
      Some (fun w => snd (sys_lstat (c_str f) w))
  end.

End Dispatch.

(** ** A sample world for running the operations *)
Module Demo.
Import MemFS.

Definition bytes_of (s : string) : list byte := list_byte_of_string s.

(** Seven kinds of entries, a transfer chunk of four bytes, and a stale
    [errno] of zero. *)
Definition world0 : world :=
  mk_world 0
    (list_to_map
       [("/empty", 1); ("/one", 2); ("/big", 3); ("/old", 4); ("/dir", 5);
        ("/lnk", 6); ("/fifo", 7); ("/dangling", 8); ("/loop", 9);
        ("/sock", 10); ("/blk", 11); ("/chr", 12)])
    (list_to_map
       [(1, Reg 0x1a4 []);
        (2, Reg 0x1a4 (bytes_of "a"));
        (3, Reg 0x1a4 (bytes_of "0123456789"));
        (4, Reg 0x1a4 (bytes_of "OLDOLDOLDOLDOLD"));
        (5, Dir 0x1ed);
        (6, Lnk "/one");
        (7, Special S_IFIFO 0x1a4);
        (8, Lnk "/nowhere");
        (9, Lnk "/loop");
        (10, Special S_IFSOCK 0x1a4);
        (11, Special S_IFBLK 0x1a4);
        (12, Special S_IFCHR 0x1a4)])
    ∅
    (list_to_map [("HOME", "/root"); ("EMPTY", "")])
    4 (mk_stat 0 7) 0x1a4 None.

(** [world0] on a device where [fstat] fails with [EIO], the unwritten
    [struct stat] holding [junk_size] in its size field. *)
Definition EIO : Z := 5.
Definition faulty (junk_size : Z) : world :=
  mk_world (w_errno world0) (w_names world0) (w_inodes world0) (w_fds world0)
           (w_env world0) (w_chunk world0) (mk_stat 0 junk_size)
           (w_junk_mode world0) (Some EIO).

(** The error a copy on [world0] ends in: label [fstat()], the stale
    [errno] of [world0] (no call has failed), generic category. *)
Definition fstat_error : system_error :=
  mk_system_error 0 generic_category "fstat()".

(** The world a run of [copy_file] ends in ([world0] if it does not end). *)
Definition final (run : option (result unit * world)) : world :=
  match run with
  | Some (_, w) => w
  | None => world0
  end.

(** [world0] with [path] opened: the descriptor and the next world. *)
Definition opened (path : string) (flags : Z) : Z * world :=
  mem_open path flags None world0.

End Demo.

(** ** Tables and instruments for the remaining operations *)

(** [on_paths f o]: the operation [o] with every path or key argument
    replaced by its image under [f]. *)
Definition on_paths (f : string → string) (o : operation) : operation :=
  match o with
  | op_open_file p fl => op_open_file (f p) fl
  | op_open_file_mode p fl m => op_open_file_mode (f p) fl m
  | op_close_file fd => op_close_file fd
  | op_read_object fd n => op_read_object fd n
  | op_write_object fd ptr n => op_write_object fd ptr n
  | op_file_size p => op_file_size (f p)
  | op_file_size_fd fd => op_file_size_fd fd
  | op_exists q p => op_exists q (f p)
  | op_copy_file t d => op_copy_file (f t) (f d)
  | op_create_symlink t l => op_create_symlink (f t) (f l)
  | op_create_hardlink o n => op_create_hardlink (f o) (f n)
  | op_get_permissions p => op_get_permissions (f p)
  | op_remove_file p => op_remove_file (f p)
  | op_remove_empty_directory d => op_remove_empty_directory (f d)
  | op_create_directory d m => op_create_directory (f d) m
  | op_rename_path o n => op_rename_path (f o) (f n)
  | op_is_env_exists k => op_is_env_exists (f k)
  | op_current_directory => op_current_directory
  | op_read_env k => op_read_env (f k)
  | op_is_file_match p t => op_is_file_match (f p) t
  | op_type_pred q p => op_type_pred q (f p)
  | op_get_file_type p => op_get_file_type (f p)
  end.

(** An OS call with its arguments, and the event of making it: the call
    and the integer it returned. *)
Inductive call :=
  | c_open (path : string) (flags : Z) (mode : option Z)
  | c_close (fd : Z)
  | c_read (fd nbytes : Z)
  | c_write (fd : Z) (buf : list byte) (nbytes : Z)
  | c_stat (path : string)
  | c_lstat (path : string)
  | c_fstat (fd : Z)
  | c_copy_file_range (rfd wfd len : Z)
  | c_symlink (target link_path : string)
  | c_link (old_path new_path : string)
  | c_unlink (path : string)
  | c_remove (path : string)
  | c_mkdir (path : string) (mode : Z)
  | c_rename (old_path new_path : string).

Record event := mk_event { ev_call : call; ev_ret : Z }.

Definition is_close (e : event) : bool :=
  match ev_call e with c_close _ => true | _ => false end.

Section Trace.
Context {W : Type} `{OS W}.

(** Append the event of a call to the log carried beside the world. *)
Definition logged {A} (c : call) (ret_of : A → Z) (r : A * W)
    (log : list event) : A * (W * list event) :=
  (fst r, (snd r, (log ++ [mk_event c (ret_of (fst r))])%list)).

(** Any OS, with a log of the calls made on it.  Every call is passed on
    unchanged; [getenv] is a lookup in the process and is not logged. *)
Definition traced : OS (W * list event) := {|
  errno := fun tw => errno (fst tw);
  sys_open := fun p fl m tw =>
    logged (c_open p fl m) id (sys_open p fl m (fst tw)) (snd tw);
  sys_close := fun fd tw =>
    logged (c_close fd) id (sys_close fd (fst tw)) (snd tw);
  sys_read := fun fd n tw =>
    logged (c_read fd n) fst (sys_read fd n (fst tw)) (snd tw);
  sys_write := fun fd buf n tw =>
    logged (c_write fd buf n) id (sys_write fd buf n (fst tw)) (snd tw);
  sys_stat := fun p tw =>
    logged (c_stat p) fst (sys_stat p (fst tw)) (snd tw);
  sys_lstat := fun p tw =>
    logged (c_lstat p) fst (sys_lstat p (fst tw)) (snd tw);
  sys_fstat := fun fd tw =>
    logged (c_fstat fd) fst (sys_fstat fd (fst tw)) (snd tw);
  sys_copy_file_range := fun rfd wfd len tw =>
    logged (c_copy_file_range rfd wfd len) id
      (sys_copy_file_range rfd wfd len (fst tw)) (snd tw);
  sys_symlink := fun t l tw =>
    logged (c_symlink t l) id (sys_symlink t l (fst tw)) (snd tw);
  sys_link := fun o n tw =>
    logged (c_link o n) id (sys_link o n (fst tw)) (snd tw);
  sys_unlink := fun p tw =>
    logged (c_unlink p) id (sys_unlink p (fst tw)) (snd tw);
  sys_remove := fun p tw =>
    logged (c_remove p) id (sys_remove p (fst tw)) (snd tw);
  sys_mkdir := fun p m tw =>
    logged (c_mkdir p m) id (sys_mkdir p m (fst tw)) (snd tw);
  sys_rename := fun o n tw =>
    logged (c_rename o n) id (sys_rename o n (fst tw)) (snd tw);
  sys_getenv := fun k tw => sys_getenv k (fst tw);
|}.

(** Forget the log of a traced run. *)
Definition untraced {A} (run : option (result A * (W * list event)))
  : option (result A * W) :=
  match run with
  | Some (r, tw) => Some (r, fst tw)
  | None => None
  end.

End Trace.

(** ** test/test.cpp *)
Module test.
Section WithOS.
Context {W : Type} `{OS W}.

Definition file : string := "test.txt".

(** [const std::string a = "Hello world\n"]. *)
Definition a : string := "Hello world" ++ String (ascii_of_nat 10) "".

(** The array [a.c_str()] points to: the characters and the terminator. *)
Definition a_c_str : list byte :=
  (list_byte_of_string a ++ [Byte.x00])%list.

(** [main], up to and including the last [close_file].  The result is what
    [read_object] left: the count and the buffer [p].  The final
    [std::cout << p.get()] is left out: [p] holds [sz] characters without a
    terminator, so what the stream prints is not fixed by the program. *)
Definition main : M W (Z * list byte) :=
  let* e := fs.is_file_exists file in
  let* _ := (if (e : bool) then fs.remove_file file else ret tt) in
  let* wfd := fs.open_file_mode file
                (Z.lor fs_omode.create fs_omode.read_write)
                fs_perms.owner_read in
  let* _ := fs.write_object wfd a_c_str (Z.of_nat (String.length a)) in
  let* _ := fs.close_file wfd in
  let* rfd := fs.open_file file fs_omode.readonly in
  let* sz := fs.file_size_fd rfd in
  let* r := fs.read_object rfd (to_size_t sz) in
  let* _ := fs.close_file rfd in
  ret r.

End WithOS.
End test.

(** ** Strings with an embedded NUL *)

Definition NUL : ascii := Ascii.zero.

Fixpoint has_nul (s : string) : bool :=
  match s with
  | EmptyString => false
  | String c rest => Ascii.eqb c NUL || has_nul rest
  end.

(** ** Events of the copy loop, and failure of the call behind an operation *)

(** A transfer between the descriptors [rfd] and [wfd]. *)
Definition is_transfer (rfd wfd : Z) (e : event) : Prop :=
  ∃ len r, e = mk_event (c_copy_file_range rfd wfd len) r.

Definition is_null {A} (p : option A) : bool :=
  match p with None => true | Some _ => false end.

Section CallTable.
Context {W : Type} `{OS W}.

(** Whether the OS call behind an operation reports failure in the world
    [w]: the integer [-1], or the null pointer for [getenv].  The three
    existence checks do not count [ENOENT] as a failure, and
    [is_env_exists] counts nothing.  [copy_file] makes several calls and
    has no entry. *)
Definition call_fails (o : operation) (w : W) : option bool :=
  match o with
  | op_open_file p f => Some (fst (sys_open (c_str p) f None w) =? -1)
  | op_open_file_mode p f m =>
      Some (fst (sys_open (c_str p) f (Some m) w) =? -1)
  | op_close_file fd => Some (fst (sys_close fd w) =? -1)
  | op_read_object fd n => Some (fst (fst (sys_read fd n w)) =? -1)
  | op_write_object fd ptr n => Some (fst (sys_write fd ptr n w) =? -1)
  | op_file_size p | op_get_permissions p =>
      Some (fst (fst (sys_stat (c_str p) w)) =? -1)
  | op_file_size_fd fd => Some (fst (fst (sys_fstat fd w)) =? -1)
  | op_exists q p =>
      let r := stat_call (follows q) (c_str p) w in
      Some ((fst (fst r) =? -1) && negb (errno (snd r) =? ENOENT))
  | op_copy_file _ _ => None
  | op_create_symlink t l =>
      Some (fst (sys_symlink (c_str t) (c_str l) w) =? -1)
  | op_create_hardlink o n =>
      Some (fst (sys_link (c_str o) (c_str n) w) =? -1)
  | op_remove_file p => Some (fst (sys_unlink (c_str p) w) =? -1)
  | op_remove_empty_directory d => Some (fst (sys_remove (c_str d) w) =? -1)
  | op_create_directory d m => Some (fst (sys_mkdir (c_str d) m w) =? -1)
  | op_rename_path o n =>
      Some (fst (sys_rename (c_str o) (c_str n) w) =? -1)
  | op_is_env_exists _ => Some false
  | op_current_directory => Some (is_null (sys_getenv "PWD" w))
  | op_read_env k => Some (is_null (sys_getenv (c_str k) w))
  | op_is_file_match p _ | op_type_pred _ p | op_get_file_type p =>
      Some (fst (fst (sys_lstat (c_str p) w)) =? -1)
  end.

End CallTable.

Section SentinelTable.
Context {W : Type} `{OS W}.


End SentinelTable.

(** ** States of the in-memory OS *)
Module MemFacts.
Import MemFS.

(** The bytes of the regular file with inode number [ino]. *)
Definition file_data (ino : Z) (w : world) : option (list byte) :=
  match w_inodes w !! ino with
  | Some (Reg _ data) => Some data
  | _ => None
  end.

(** A copy in progress between two open regular files: [rfd] reads inode
    [rino], whose bytes are [src], and [wfd] writes inode [wino], which held
    [dst] at the start.  Both offsets stand at [done], the first [done]
    bytes of [src] lie over the start of [dst], and the remaining count
    [len] is what [src] still has to give plus [extra]. *)
Inductive copying (rfd wfd rino wino : Z) (src dst : list byte) (extra : Z)
    (w : world) (len : Z) : Prop :=
  | mk_copying (done : nat) (rflags wflags rperm wperm : Z) :
      w_fds w !! rfd = Some (mk_ofd rino done rflags) →
      w_fds w !! wfd = Some (mk_ofd wino done wflags) →
      rfd ≠ wfd →
      rino ≠ wino →
      (accmode rflags =? O_WRONLY) = false →
      (accmode wflags =? O_RDONLY) = false →
      has_flag wflags O_APPEND = false →
      w_inodes w !! rino = Some (Reg rperm src) →
      w_inodes w !! wino
        = Some (Reg wperm (take done src ++ drop done dst)%list) →
      (0 < w_chunk w)%nat →
      (done ≤ length src)%nat →
      len = Z.of_nat (length src - done) + extra →
      copying rfd wfd rino wino src dst extra w len.

End MemFacts.

(** ** More sample states *)
Module Samples.
Import MemFS Demo.

Definition big : list byte := bytes_of "0123456789".
Definition old : list byte := bytes_of "OLDOLDOLDOLDOLD".

(** [world0] with [/big] open for reading on descriptor 3 and [/old] open
    for writing on descriptor 4. *)
Definition copy_start : world :=
  snd (mem_open "/old" O_WRONLY None (snd (mem_open "/big" O_RDONLY None world0))).

(** [world0] with the one-byte [/one] open for reading on descriptor 3 and
    [/old] open for writing on descriptor 4. *)
Definition short_start : world :=
  snd (mem_open "/old" O_WRONLY None (snd (mem_open "/one" O_RDONLY None world0))).

(** [world0] with a transfer chunk of 4096 bytes. *)
Definition roomy : world :=
  mk_world (w_errno world0) (w_names world0) (w_inodes world0) (w_fds world0)
           (w_env world0) 4096 (w_junk world0) (w_junk_mode world0)
           (w_fstat_error world0).

End Samples.

(** * Properties *)

(** ** Permission constants *)

Lemma testbit_lor_list (l : list Z) (i : Z) :
  Z.testbit (fold_right Z.lor 0 l) i = true
  ↔ ∃ b, In b l ∧ Z.testbit b i = true.
Proof.
  induction l as [|a l IH]; simpl.
  - rewrite Z.bits_0. split; [discriminate | intros (b & [] & _)].
  - rewrite Z.lor_spec, orb_true_iff, IH. split.
    + intros [Ha | (b & Hb & Hi)]; [exists a | exists b]; auto.
    + intros (b & [<- | Hb] & Hi); [left | right; exists b]; auto.
Qed.

Lemma mask_is_lor_of_single_bits :
  fs_perms.mask = fold_right Z.lor 0 fs_perms.single_bits.
Proof. reflexivity. Qed.

(** C8: [fs_perms::mask] is the bitwise OR of the nine owner/group/other
    read, write and execute bits with set-uid, set-gid and sticky; a bit is
    set in it exactly when one of those twelve constants has it; and
    [fs_perms::unknown] fails the mask test, [unknown & mask != unknown]. *)
Theorem perms_mask_exact :
  fs_perms.mask = fold_right Z.lor 0 fs_perms.single_bits
  ∧ (∀ i, Z.testbit fs_perms.mask i = true
          ↔ ∃ b, In b fs_perms.single_bits ∧ Z.testbit b i = true)
  ∧ Z.land fs_perms.unknown fs_perms.mask ≠ fs_perms.unknown.
Proof.
  split; [apply mask_is_lor_of_single_bits | split].
  - intros i. rewrite mask_is_lor_of_single_bits. apply testbit_lor_list.
  - vm_compute. discriminate.
Qed.

(** Numerically the mask is the low twelve bits. *)
Lemma mask_is_low_twelve_bits : fs_perms.mask = Z.ones 12.
Proof. reflexivity. Qed.

(** Unfold the monad so that a wrapper becomes a case analysis on what its
    system call returned. *)
Ltac run_monad :=
  unfold bind, sys, ret, throw, peek, lift in *; simpl in *.

Section Facade.
Context {W : Type} `{OS W}.

(** ** Environment accessors *)

(** C9: for every key, [is_env_exists] returns normally and leaves the
    world as it was; its answer is [false] exactly when [getenv] gives the
    null pointer (the variable is unset), in which case [read_env] throws
    the error labelled [getenv()]; when the variable is set to [v],
    [is_env_exists] answers [true] and [read_env] returns [v]. *)
Theorem env_exists_and_read_env (key : string) (w : W) :
  (∃ b, fs.is_env_exists key w = (Ok b, w)
        ∧ (b = false ↔ sys_getenv (c_str key) w = None))
  ∧ (sys_getenv (c_str key) w = None →
       fs.read_env key w = (Throw (fs_error.get "getenv()" w), w))
  ∧ (∀ v, sys_getenv (c_str key) w = Some v →
       fs.is_env_exists key w = (Ok true, w)
       ∧ fs.read_env key w = (Ok v, w)).
Proof.
  unfold fs.is_env_exists, fs.read_env. run_monad.
  destruct (sys_getenv (c_str key) w) as [v|] eqn:E.
  - split; [|split].
    + exists true. split; [reflexivity | split; discriminate].
    + discriminate.
    + intros v' [= <-]. split; reflexivity.
  - split; [|split].
    + exists false. split; [reflexivity | split; reflexivity].
    + reflexivity.
    + discriminate.
Qed.

(** ** Handle operations *)

Lemma read_object_run (fd nbytes : Z) (w : W) :
  fs.read_object fd nbytes w =
    let '((sz, data), w1) := sys_read fd nbytes w in
    if sz =? -1 then (Throw (fs_error.get "read()" w1), w1)
    else (Ok (sz, data), w1).
Proof.
  unfold fs.read_object. run_monad.
  destruct (sys_read fd nbytes w) as [[sz data] w1]. simpl.
  destruct (sz =? -1); reflexivity.
Qed.

Lemma write_object_run (fd : Z) (ptr : list byte) (nbytes : Z) (w : W) :
  fs.write_object fd ptr nbytes w =
    let '(sz, w1) := sys_write fd ptr nbytes w in
    if sz =? -1 then (Throw (fs_error.get "write()" w1), w1)
    else (Ok sz, w1).
Proof.
  unfold fs.write_object. run_monad.
  destruct (sys_write fd ptr nbytes w) as [sz w1].
  destruct (sz =? -1); reflexivity.
Qed.

(** C7: [read_object] and [write_object] throw exactly when the OS call
    returned [-1]; in every other case they return the call's count as it
    is, whatever its relation to the requested [nbytes] (a short or empty
    transfer is a normal return). *)
Theorem read_write_partial_completion
    (fd nbytes : Z) (ptr : list byte) (w : W) :
  (is_throw (fst (fs.read_object fd nbytes w)) = true
     ↔ fst (fst (sys_read fd nbytes w)) = -1)
  ∧ (fst (fst (sys_read fd nbytes w)) ≠ -1 →
       fs.read_object fd nbytes w
       = (Ok (fst (sys_read fd nbytes w)), snd (sys_read fd nbytes w)))
  ∧ (is_throw (fst (fs.write_object fd ptr nbytes w)) = true
     ↔ fst (sys_write fd ptr nbytes w) = -1)
  ∧ (fst (sys_write fd ptr nbytes w) ≠ -1 →
       fs.write_object fd ptr nbytes w
       = (Ok (fst (sys_write fd ptr nbytes w)),
          snd (sys_write fd ptr nbytes w))).
Proof.
  rewrite read_object_run, write_object_run.
  destruct (sys_read fd nbytes w) as [[sz data] w1].
  destruct (sys_write fd ptr nbytes w) as [sz' w1']. simpl.
  destruct (Z.eqb_spec sz (-1)), (Z.eqb_spec sz' (-1)); simpl;
    repeat split; intros; try congruence; try discriminate.
Qed.

(** ** Type predicates *)

Lemma is_file_match_run (file : string) (type : Z) (w : W) :
  fs.is_file_match file type w =
    let '((r, st), w1) := sys_lstat (c_str file) w in
    if r =? -1 then (Throw (fs_error.get "lstat()" w1), w1)
    else (Ok (Z.land (st_mode st) S_IFMT =? type), w1).
Proof.
  unfold fs.is_file_match. run_monad.
  destruct (sys_lstat (c_str file) w) as [[r st] w1]. simpl.
  destruct (r =? -1); reflexivity.
Qed.

Lemma run_pred_is_file_match (p : type_pred) (loc : string) :
  run_pred p loc = fs.is_file_match loc (type_const p).
Proof. destruct p; reflexivity. Qed.

Lemma get_file_type_run (file : string) (w : W) :
  fs.get_file_type file w =
    let '((r, st), w1) := sys_lstat (c_str file) w in
    if r =? -1 then (Throw (fs_error.get "lstat()" w1), w1)
    else (Ok (Z.land (st_mode st) S_IFMT), w1).
Proof.
  unfold fs.get_file_type. run_monad.
  destruct (sys_lstat (c_str file) w) as [[r st] w1]. simpl.
  destruct (r =? -1); reflexivity.
Qed.

(** C5: whenever [lstat] fails on the path, for whatever reason and in
    particular with [ENOENT] for a path that does not exist, each of the
    eight type predicates throws the error labelled [lstat()] built from
    the [errno] the call left; none of them returns [false]. *)
Theorem type_predicates_throw_on_missing
    (p : type_pred) (loc : string) (w w1 : W) (st : stat) :
  sys_lstat (c_str loc) w = ((-1, st), w1) →
  run_pred p loc w = (Throw (fs_error.get "lstat()" w1), w1)
  ∧ code (fs_error.get "lstat()" w1) = errno w1
  ∧ ∀ b, fst (run_pred p loc w) ≠ Ok b.
Proof.
  intros E. rewrite run_pred_is_file_match, is_file_match_run, E. simpl.
  repeat split. discriminate.
Qed.

(** Two type predicates share a constant only when they are the same
    predicate or the pair [is_fifo], [is_pipe]. *)
Lemma type_const_inj (p q : type_pred) :
  type_const p = type_const q →
  p = q ∨ (p = PFifo ∧ q = PPipe) ∨ (p = PPipe ∧ q = PFifo).
Proof. destruct p, q; vm_compute; intros E; auto; discriminate E. Qed.

(** C6: when [lstat] succeeds on the path, every type predicate returns,
    and returns [true] exactly when [get_file_type] returns the predicate's
    type constant; two predicates that are both [true] have the same type
    constant ([is_pipe] is [is_fifo] under a second name); and when the
    masked mode is the constant of [p], [p] is [true] and every predicate
    for another type is [false]. *)
Theorem type_predicates_agree_with_file_type
    (loc : string) (w w1 : W) (r : Z) (st : stat) :
  sys_lstat (c_str loc) w = ((r, st), w1) →
  r ≠ -1 →
  (∀ p, ∃ b, run_pred p loc w = (Ok b, w1)
             ∧ (b = true ↔ fs.get_file_type loc w = (Ok (type_const p), w1)))
  ∧ (∀ p q, run_pred p loc w = (Ok true, w1) →
            run_pred q loc w = (Ok true, w1) →
            type_const p = type_const q)
  ∧ (∀ p, Z.land (st_mode st) S_IFMT = type_const p →
          run_pred p loc w = (Ok true, w1)
          ∧ ∀ q, type_const q ≠ type_const p →
                 run_pred q loc w = (Ok false, w1)).
Proof.
  intros E Hr.
  assert (Hrun : ∀ p, run_pred p loc w
                      = (Ok (Z.land (st_mode st) S_IFMT =? type_const p), w1)).
  { intros p. rewrite run_pred_is_file_match, is_file_match_run, E.
    destruct (Z.eqb_spec r (-1)); [contradiction | reflexivity]. }
  assert (Hty : fs.get_file_type loc w = (Ok (Z.land (st_mode st) S_IFMT), w1)).
  { rewrite get_file_type_run, E.
    destruct (Z.eqb_spec r (-1)); [contradiction | reflexivity]. }
  split; [|split].
  - intros p. eexists. split; [apply Hrun|]. rewrite Hty, Z.eqb_eq.
    split; [intros -> | intros [= ->]]; reflexivity.
  - intros p q. rewrite !Hrun. intros [= Hp] [= Hq].
    apply Z.eqb_eq in Hp, Hq. congruence.
  - intros p Hp. rewrite !Hrun. split.
    + rewrite Hp, Z.eqb_refl. reflexivity.
    + intros q Hq. rewrite Hrun, Hp.
      destruct (Z.eqb_spec (type_const p) (type_const q)); congruence.
Qed.

(** ** Existence checks *)

Lemma run_exists_run (p : exists_pred) (path : string) (w : W) :
  run_exists p path w =
    let '((r, st), w1) := stat_call (follows p) (c_str path) w in
    if r =? -1 then
      if errno w1 =? ENOENT then (Ok false, w1)
      else (Throw (fs_error.get (stat_label (follows p)) w1), w1)
    else (Ok (Z.land (st_mode st) S_IFMT =? wanted_type p), w1).
Proof.
  destruct p; simpl;
    unfold fs.is_file_exists, fs.is_directory_exists, fs.is_symlink_exists;
    run_monad;
    match goal with |- context [?call (c_str path) w] =>
      destruct (call (c_str path) w) as [[r st] w1] end; simpl;
    destruct (r =? -1); try reflexivity;
    destruct (errno w1 =? ENOENT); reflexivity.
Qed.

(** C4: each existence check makes one metadata call, [stat] (which
    follows symbolic links) for the regular-file and directory checks and
    [lstat] (which does not) for the symlink check.  When the call fails
    with [ENOENT] the check returns [false]; when it fails with any other
    code the check throws the error labelled with that call; when it
    succeeds the check returns whether the mode masked with [S_IFMT] equals
    the wanted type. *)
Theorem exists_checks (p : exists_pred) (path : string)
    (w w1 : W) (r : Z) (st : stat) :
  stat_call (follows p) (c_str path) w = ((r, st), w1) →
  (r = -1 → errno w1 = ENOENT → run_exists p path w = (Ok false, w1))
  ∧ (r = -1 → errno w1 ≠ ENOENT →
       run_exists p path w
       = (Throw (fs_error.get (stat_label (follows p)) w1), w1))
  ∧ (r ≠ -1 →
       run_exists p path w
       = (Ok (Z.land (st_mode st) S_IFMT =? wanted_type p), w1))
  ∧ stat_call (follows EFile) = sys_stat
  ∧ stat_call (follows EDirectory) = sys_stat
  ∧ stat_call (follows ESymlink) = sys_lstat.
Proof.
  intros E. rewrite run_exists_run, E.
  destruct (Z.eqb_spec r (-1)), (Z.eqb_spec (errno w1) ENOENT);
    repeat split; intros; congruence.
Qed.

End Facade.

(** ** Copy *)
Section Copy.
Context {W : Type} `{OS W}.

(** The flags of the destination open do not contain the truncate bit. *)
Lemma copy_dest_flags :
  Z.land (Z.lor fs_omode.writeonly fs_omode.create) fs_omode.truncate = 0
  ∧ Z.land (Z.lor fs_omode.writeonly fs_omode.create) fs_omode.create
    = fs_omode.create
  ∧ Z.land (Z.lor fs_omode.writeonly fs_omode.create) fs_omode.excl = 0.
Proof. repeat split. Qed.

(** An error out of the loop is the one of the failing transfer, built in
    the world that transfer left. *)
Lemma copy_loop_throw (fuel : nat) :
  ∀ (rfd wfd len : Z) (w w' : W) (e : system_error),
    fs.copy_loop fuel rfd wfd len w = Some (Throw e, w') →
    e = fs_error.get "copy_file_range()" w'.
Proof.
  induction fuel as [|fuel IH]; intros rfd wfd len w w' e; simpl.
  - discriminate.
  - destruct (sys_copy_file_range rfd wfd len w) as [r w1].
    destruct (to_size_t r =? to_size_t (-1)).
    + intros [= <- <-]. reflexivity.
    + destruct (0 <? to_size_t (len - to_size_t r)).
      * apply IH.
      * discriminate.
Qed.

(** One iteration whose transfer reports the sentinel throws at once. *)
Lemma copy_loop_sentinel (fuel : nat) (rfd wfd len : Z) (w w1 : W) :
  sys_copy_file_range rfd wfd len w = (-1, w1) →
  fs.copy_loop (S fuel) rfd wfd len w
  = Some (Throw (fs_error.get "copy_file_range()" w1), w1).
Proof. intros E. simpl. rewrite E. reflexivity. Qed.

(** What the loop does after one transfer that did not fail. *)
Lemma copy_loop_step (fuel : nat) (rfd wfd len r : Z) (w w1 : W) :
  sys_copy_file_range rfd wfd len w = (r, w1) →
  to_size_t r ≠ to_size_t (-1) →
  fs.copy_loop (S fuel) rfd wfd len w
  = if 0 <? to_size_t (len - to_size_t r)
    then fs.copy_loop fuel rfd wfd (to_size_t (len - to_size_t r)) w1
    else Some (Ok tt, w1).
Proof.
  intros E Hr. simpl. rewrite E.
  destruct (Z.eqb_spec (to_size_t r) (to_size_t (-1))); [contradiction|].
  reflexivity.
Qed.

(** After two successful opens, a successful [fstat] makes [copy_file]
    throw, before any byte is transferred. *)
Lemma copy_file_fstat_ok
    (target dest_path : string) (fuel : nat)
    (w w1 w2 w3 : W) (rfd wfd r : Z) (st : stat) :
  sys_open (c_str target) fs_omode.readonly None w = (rfd, w1) →
  rfd ≠ -1 →
  sys_open (c_str dest_path) (Z.lor fs_omode.writeonly fs_omode.create) None w1
    = (wfd, w2) →
  wfd ≠ -1 →
  sys_fstat rfd w2 = ((r, st), w3) →
  r ≠ -1 →
  fs.copy_file target dest_path fuel w
  = Some (Throw (fs_error.get "fstat()" w3), w3).
Proof.
  intros E1 H1 E2 H2 E3 H3. unfold fs.copy_file. rewrite E1.
  destruct (Z.eqb_spec rfd (-1)); [contradiction|]. rewrite E2.
  destruct (Z.eqb_spec wfd (-1)); [contradiction|]. rewrite E3.
  destruct (Z.eqb_spec r (-1)); [contradiction|]. reflexivity.
Qed.

(** After two successful opens, a failed [fstat] is passed over: the loop
    starts with the size field of the [struct stat] that was not written. *)
Lemma copy_file_fstat_failed
    (target dest_path : string) (fuel : nat)
    (w w1 w2 w3 : W) (rfd wfd : Z) (st : stat) :
  sys_open (c_str target) fs_omode.readonly None w = (rfd, w1) →
  rfd ≠ -1 →
  sys_open (c_str dest_path) (Z.lor fs_omode.writeonly fs_omode.create) None w1
    = (wfd, w2) →
  wfd ≠ -1 →
  sys_fstat rfd w2 = ((-1, st), w3) →
  fs.copy_file target dest_path fuel w
  = match fs.copy_loop fuel rfd wfd (to_size_t (st_size st)) w3 with
    | None => None
    | Some (Throw e, w4) => Some (Throw e, w4)
    | Some (Ok _, w4) =>
        Some (Ok tt, snd (sys_close wfd (snd (sys_close rfd w4))))
    end.
Proof.
  intros E1 H1 E2 H2 E3. unfold fs.copy_file. rewrite E1.
  destruct (Z.eqb_spec rfd (-1)); [contradiction|]. rewrite E2.
  destruct (Z.eqb_spec wfd (-1)); [contradiction|]. rewrite E3. simpl.
  destruct (fs.copy_loop fuel rfd wfd (to_size_t (st_size st)) w3)
    as [[[[]|e] w4]|]; try reflexivity.
  destruct (sys_close rfd w4) as [c1 w5]. simpl.
  destruct (sys_close wfd w5) as [c2 w6]. reflexivity.
Qed.

(** C2: in [copy_file], once both opens have succeeded, the test on the
    result of [fstat] is the wrong way round.  If [fstat] succeeds, the
    call throws the error labelled [fstat()] and the transfer loop does not
    run; if [fstat] fails, no error is raised for it and the loop runs with
    a counter taken from the unwritten size field.  (Inside the loop a
    transfer that reports the sentinel does throw at once.) *)
Theorem copy_file_stat_test_inverted
    (target dest_path : string) (fuel : nat)
    (w w1 w2 w3 : W) (rfd wfd r : Z) (st : stat) :
  sys_open (c_str target) fs_omode.readonly None w = (rfd, w1) →
  rfd ≠ -1 →
  sys_open (c_str dest_path) (Z.lor fs_omode.writeonly fs_omode.create) None w1
    = (wfd, w2) →
  wfd ≠ -1 →
  sys_fstat rfd w2 = ((r, st), w3) →
  (r ≠ -1 →
     fs.copy_file target dest_path fuel w
     = Some (Throw (fs_error.get "fstat()" w3), w3))
  ∧ (r = -1 →
       fs.copy_file target dest_path fuel w
       = match fs.copy_loop fuel rfd wfd (to_size_t (st_size st)) w3 with
         | None => None
         | Some (Throw e, w4) => Some (Throw e, w4)
         | Some (Ok _, w4) =>
             Some (Ok tt, snd (sys_close wfd (snd (sys_close rfd w4))))
         end)
  ∧ (∀ len wa wb,
       sys_copy_file_range rfd wfd len wa = (-1, wb) →
       fs.copy_loop (S fuel) rfd wfd len wa
       = Some (Throw (fs_error.get "copy_file_range()" wb), wb)).
Proof.
  intros E1 H1 E2 H2 E3. split; [|split].
  - intros H3. eapply copy_file_fstat_ok; eauto.
  - intros ->. eapply copy_file_fstat_failed; eauto.
  - intros len wa wb. apply copy_loop_sentinel.
Qed.

(** An error out of [copy_file] carries one of its three labels and the
    [errno] of the world the call ends in. *)
Lemma copy_file_throw
    (target dest_path : string) (fuel : nat) (w w' : W) (e : system_error) :
  fs.copy_file target dest_path fuel w = Some (Throw e, w') →
  e = fs_error.get (what_arg e) w'
  ∧ In (what_arg e) ["open()"; "fstat()"; "copy_file_range()"].
Proof.
  unfold fs.copy_file.
  destruct (sys_open (c_str target) fs_omode.readonly None w) as [rfd w1].
  destruct (rfd =? -1).
  { intros [= <- <-]. simpl. auto. }
  destruct (sys_open (c_str dest_path) _ None w1) as [wfd w2].
  destruct (wfd =? -1).
  { intros [= <- <-]. simpl. auto. }
  destruct (sys_fstat rfd w2) as [[r st] w3].
  destruct (negb (r =? -1)).
  { intros [= <- <-]. simpl. auto. }
  destruct (fs.copy_loop fuel rfd wfd (to_size_t (st_size st)) w3)
    as [[[[]|e'] w4]|] eqn:E.
  - destruct (sys_close rfd w4) as [c1 w5].
    destruct (sys_close wfd w5) as [c2 w6]. discriminate.
  - intros [= <- <-]. apply copy_loop_throw in E. subst e'. simpl. auto.
  - discriminate.
Qed.

End Copy.

(** ** Error translation *)
Section Errors.
Context {W : Type} `{OS W}.

(** [fs_error::get] stores the label, the current [errno] and the generic
    category, nothing else. *)
Lemma get_fields (err : string) (w : W) :
  what_arg (fs_error.get err w) = err
  ∧ code (fs_error.get err w) = errno w
  ∧ category (fs_error.get err w) = generic_category.
Proof. repeat split. Qed.

(** A wrapper that makes one call and throws on one condition. *)
Lemma lift_throw {A} (inj : A → value) (c : M W A) (w w' : W)
    (e : system_error) (label : string) :
  (∀ w1 e1, c w = (Throw e1, w1) → e1 = fs_error.get label w1) →
  lift inj c w = Some (Throw e, w') →
  e = fs_error.get label w'.
Proof.
  intros Hc. unfold lift. destruct (c w) as [[a|e1] w1] eqn:E.
  - discriminate.
  - intros [= <- <-]. apply (Hc w1 e1). reflexivity.
Qed.

Ltac one_call :=
  run_monad;
  repeat match goal with
  | |- context [match ?x with _ => _ end] =>
      lazymatch x with
      | match _ with _ => _ end => fail
      | _ => destruct x; simpl
      end
  end;
  intros; try discriminate;
  match goal with
  | E : (Throw _, _) = (Throw _, _) |- _ => injection E as <- <-; reflexivity
  end.

Ltac world_after_call :=
  run_monad;
  try match goal with
      | |- _ → _ = snd ?cw => destruct cw as [? ?]; simpl
      end;
  repeat match goal with
         | |- context [if ?b then _ else _] => destruct b; simpl
         | |- context [match sys_getenv ?k ?w with _ => _ end] =>
             destruct (sys_getenv k w); simpl
         end;
  intros [= <- <-]; reflexivity.

(** Every operation but [copy_file] ends in the world its one OS call
    left, whether it returns or throws: the call is made once and nothing
    follows it. *)
Lemma single_call_world
    (fuel : nat) (o : operation) (k : W → W) (w w' : W) (r : result value) :
  the_call o = Some k →
  run_op fuel o w = Some (r, w') →
  w' = k w.
Proof.
  destruct o; simpl; intros [= <-];
    try match goal with p : exists_pred |- _ => destruct p; simpl end;
    try rewrite run_pred_is_file_match;
    unfold stat_call, fs.open_file, fs.open_file_mode, fs.close_file,
      fs.read_object, fs.write_object, fs.file_size, fs.file_size_fd,
      fs.is_file_exists, fs.is_directory_exists, fs.is_symlink_exists,
      fs.create_symlink, fs.create_hardlink, fs.get_permissions,
      fs.remove_file, fs.remove_empty_directory, fs.create_directory,
      fs.rename_path, fs.is_env_exists, fs.current_directory, fs.read_env,
      fs.is_file_match, fs.get_file_type;
    world_after_call.
Qed.

(** Whatever operation throws, the error is a [std::system_error]
    holding exactly the label of one of the OS calls the operation makes,
    the [errno] of the world the operation ends in, and the generic
    category; and for every operation that makes one OS call, that world is
    the one the call left: the call was made once, not repeated, and its
    code reaches the caller as it is. *)
Theorem every_error_is_translated
    (fuel : nat) (o : operation) (w w' : W) (e : system_error) :
  run_op fuel o w = Some (Throw e, w') →
  e = fs_error.get (what_arg e) w'
  ∧ In (what_arg e) (labels o)
  ∧ code e = errno w'
  ∧ category e = generic_category
  ∧ ∀ k, the_call o = Some k → w' = k w.
Proof.
  intros Hrun.
  assert (Hl : ∃ label, In label (labels o) ∧ e = fs_error.get label w').
  { destruct o; simpl in Hrun |- *;
      try (eexists; split; [left; reflexivity|];
           eapply lift_throw; [|exact Hrun];
           unfold fs.open_file, fs.open_file_mode, fs.close_file,
             fs.read_object, fs.write_object, fs.file_size, fs.file_size_fd,
             fs.create_symlink, fs.create_hardlink, fs.get_permissions,
             fs.remove_file, fs.remove_empty_directory, fs.create_directory,
             fs.rename_path, fs.current_directory, fs.read_env,
             fs.is_file_match, fs.get_file_type;
           intros w1 e1; one_call).
    - (* the existence checks *)
      match goal with p : exists_pred |- _ => destruct p end; simpl;
        (eexists; split; [left; reflexivity|];
         eapply lift_throw; [|exact Hrun];
         unfold run_exists, fs.is_file_exists, fs.is_directory_exists,
           fs.is_symlink_exists; intros w1 e1; one_call).
    - (* copy_file *)
      destruct (fs.copy_file target dest_path fuel w)
        as [[[[]|e'] w4]|] eqn:E; try discriminate.
      injection Hrun as <- <-.
      apply copy_file_throw in E. destruct E as [-> Hin].
      eexists; split; [exact Hin | reflexivity].
    - (* is_env_exists never throws *)
      exfalso. revert Hrun. unfold fs.is_env_exists. run_monad.
      destruct (sys_getenv (c_str key) w); discriminate.
    - (* the type predicates *)
      eexists; split; [left; reflexivity|].
      eapply lift_throw; [|exact Hrun].
      intros w1 e1. rewrite run_pred_is_file_match.
      unfold fs.is_file_match. one_call. }
  destruct Hl as (label & Hin & ->). simpl.
  split; [reflexivity|]. split; [exact Hin|]. split; [reflexivity|].
  split; [reflexivity|].
  intros k Hk. eapply single_call_world; eauto.
Qed.

End Errors.

(** * The operations run on the sample world *)
Ltac conjs := repeat match goal with |- _ ∧ _ => split end.

Section Runs.
Import MemFS Demo.

(** The variable [NOPE] is unset and [HOME] is set in [world0]. *)
Lemma env_exists_and_read_env_witness :
  fs.is_env_exists "NOPE" world0 = (Ok false, world0)
  ∧ fs.read_env "NOPE" world0
    = (Throw (mk_system_error 0 generic_category "getenv()"), world0)
  ∧ fs.is_env_exists "HOME" world0 = (Ok true, world0)
  ∧ fs.read_env "HOME" world0 = (Ok "/root", world0).
Proof.
  destruct (env_exists_and_read_env "NOPE" world0) as ((b & Hb & Hiff) & Hnone & _).
  destruct (env_exists_and_read_env "HOME" world0) as (_ & _ & Hsome).
  assert (Hunset : sys_getenv (c_str "NOPE") world0 = None) by reflexivity.
  apply Hiff in Hunset as ->.
  destruct (Hsome "/root" eq_refl) as [He Hr].
  conjs; [exact Hb | apply Hnone; reflexivity | exact He | exact Hr].
Defined.

(** A variable set to the empty string exists. *)
Example env_empty_value_exists :
  fst (fs.is_env_exists "EMPTY" world0) = Ok true
  ∧ fst (fs.read_env "EMPTY" world0) = Ok "".
Proof. split; reflexivity. Qed.

(** With a transfer chunk of four bytes: a read of 100 bytes from the
    ten-byte file returns 4, a read from the empty file returns 0, a write
    of 11 bytes returns 4, and all three are normal returns; a read on a
    descriptor that is not open throws. *)
Lemma read_write_partial_completion_witness :
  fst (fs.read_object 3 100 (snd (opened "/big" O_RDONLY)))
    = Ok (4, bytes_of "0123")
  ∧ fst (fs.read_object 3 100 (snd (opened "/empty" O_RDONLY))) = Ok (0, [])
  ∧ fst (fs.write_object 3 (bytes_of "hello world") 11
           (snd (opened "/old" O_WRONLY))) = Ok 4
  ∧ is_throw (fst (fs.read_object 3 100 world0)) = true.
Proof.
  pose proof (read_write_partial_completion 3 100 (bytes_of "hello world")
                (snd (opened "/big" O_RDONLY))) as (_ & Hbig & _ & _).
  pose proof (read_write_partial_completion 3 100 (bytes_of "hello world")
                (snd (opened "/empty" O_RDONLY))) as (_ & Hempty & _ & _).
  pose proof (read_write_partial_completion 3 11 (bytes_of "hello world")
                (snd (opened "/old" O_WRONLY))) as (_ & _ & _ & Hold).
  pose proof (read_write_partial_completion 3 100 [] world0) as (Hbad & _).
  conjs.
  - rewrite Hbig; [reflexivity | vm_compute; discriminate].
  - rewrite Hempty; [reflexivity | vm_compute; discriminate].
  - rewrite Hold; [reflexivity | vm_compute; discriminate].
  - apply Hbad. reflexivity.
Defined.

(** On the path [/nope], which does not exist, [is_regular_file] and
    [is_pipe] throw with code [ENOENT]. *)
Lemma type_predicates_throw_on_missing_witness :
  fst (run_pred PRegular "/nope" world0)
    = Throw (mk_system_error ENOENT generic_category "lstat()")
  ∧ fst (run_pred PPipe "/nope" world0)
    = Throw (mk_system_error ENOENT generic_category "lstat()").
Proof.
  assert (E : sys_lstat (c_str "/nope") world0
              = ((-1, w_junk world0), set_errno ENOENT world0)) by reflexivity.
  destruct (type_predicates_throw_on_missing PRegular "/nope" _ _ _ E) as (Hr & _).
  destruct (type_predicates_throw_on_missing PPipe "/nope" _ _ _ E) as (Hp & _).
  rewrite Hr, Hp. split; reflexivity.
Defined.

(** On the FIFO [/fifo]: [is_fifo] and its alias are true, [is_socket] and
    [is_regular_file] are false, and [get_file_type] gives [S_IFIFO]. *)
Lemma type_predicates_agree_with_file_type_witness :
  run_pred PFifo "/fifo" world0 = (Ok true, world0)
  ∧ run_pred PPipe "/fifo" world0 = (Ok true, world0)
  ∧ run_pred PSocket "/fifo" world0 = (Ok false, world0)
  ∧ run_pred PRegular "/fifo" world0 = (Ok false, world0)
  ∧ fs.get_file_type "/fifo" world0 = (Ok S_IFIFO, world0).
Proof.
  assert (E : sys_lstat (c_str "/fifo") world0
              = ((0, stat_of (Special S_IFIFO 0x1a4)), world0)) by reflexivity.
  assert (Hr : (0 : Z) ≠ -1) by discriminate.
  destruct (type_predicates_agree_with_file_type "/fifo" _ _ _ _ E Hr)
    as (Hiff & _ & Hone).
  destruct (Hone PFifo eq_refl) as [Hfifo Hothers].
  destruct (Hiff PFifo) as (b & Hb & Hty).
  rewrite Hfifo in Hb. injection Hb as <-.
  conjs.
  - exact Hfifo.
  - exact Hfifo.
  - apply Hothers. vm_compute. discriminate.
  - apply Hothers. vm_compute. discriminate.
  - apply Hty. reflexivity.
Defined.

(** [/lnk] is a symbolic link to a regular file: the regular-file check
    follows it, the symlink check does not.  [/nope] and the dangling link
    give [false]; the link loop makes [stat] fail with [ELOOP], which is
    thrown. *)
Lemma exists_checks_witness :
  run_exists EFile "/lnk" world0 = (Ok true, world0)
  ∧ run_exists ESymlink "/lnk" world0 = (Ok true, world0)
  ∧ run_exists EDirectory "/lnk" world0 = (Ok false, world0)
  ∧ fst (run_exists EFile "/nope" world0) = Ok false
  ∧ fst (run_exists EFile "/dangling" world0) = Ok false
  ∧ fst (run_exists ESymlink "/dangling" world0) = Ok true
  ∧ fst (run_exists EFile "/loop" world0)
    = Throw (mk_system_error ELOOP generic_category "stat()").
Proof.
  assert (Elnk : stat_call (follows EFile) (c_str "/lnk") world0
                 = ((0, stat_of (Reg 0x1a4 (bytes_of "a"))), world0))
    by reflexivity.
  assert (Elnk' : stat_call (follows ESymlink) (c_str "/lnk") world0
                  = ((0, stat_of (Lnk "/one")), world0)) by reflexivity.
  assert (Enope : stat_call (follows EFile) (c_str "/nope") world0
                  = ((-1, w_junk world0), set_errno ENOENT world0))
    by reflexivity.
  assert (Edang : stat_call (follows EFile) (c_str "/dangling") world0
                  = ((-1, w_junk world0), set_errno ENOENT world0))
    by reflexivity.
  assert (Edang' : stat_call (follows ESymlink) (c_str "/dangling") world0
                   = ((0, stat_of (Lnk "/nowhere")), world0)) by reflexivity.
  assert (Eloop : stat_call (follows EFile) (c_str "/loop") world0
                  = ((-1, w_junk world0), set_errno ELOOP world0))
    by (vm_compute; reflexivity).
  assert (Hok : (0 : Z) ≠ -1) by discriminate.
  destruct (exists_checks EFile "/lnk" _ _ _ _ Elnk) as (_ & _ & H1 & _).
  destruct (exists_checks ESymlink "/lnk" _ _ _ _ Elnk') as (_ & _ & H2 & _).
  destruct (exists_checks EDirectory "/lnk" _ _ _ _ Elnk) as (_ & _ & H3 & _).
  destruct (exists_checks EFile "/nope" _ _ _ _ Enope) as (H4 & _).
  destruct (exists_checks EFile "/dangling" _ _ _ _ Edang) as (H5 & _).
  destruct (exists_checks ESymlink "/dangling" _ _ _ _ Edang') as (_ & _ & H6 & _).
  destruct (exists_checks EFile "/loop" _ _ _ _ Eloop) as (_ & H7 & _).
  rewrite (H1 Hok), (H2 Hok), (H3 Hok), (H4 eq_refl eq_refl),
    (H5 eq_refl eq_refl), (H6 Hok), H7;
    [conjs; reflexivity | reflexivity | vm_compute; discriminate].
Defined.

(** [file_size] of a missing path throws [stat()] with [ENOENT]; the
    triple is the one of the theorem. *)
Lemma every_error_is_translated_witness :
  ∃ e w', run_op 0 (op_file_size "/nope") world0 = Some (Throw e, w')
          ∧ what_arg e = "stat()"
          ∧ code e = ENOENT
          ∧ category e = generic_category.
Proof.
  assert (E : run_op 0 (op_file_size "/nope") world0
              = Some (Throw (mk_system_error ENOENT generic_category "stat()"),
                      set_errno ENOENT world0)) by reflexivity.
  destruct (every_error_is_translated _ _ _ _ _ E) as (_ & _ & Hc & Hg & _).
  eexists _, _. split; [exact E|]. split; [reflexivity|].
  split; [exact Hc | exact Hg].
Defined.

End Runs.

(** ** Copy on the sample world *)
Section CopyRuns.
Import MemFS Demo.

(** Copying the one-byte file [/one] to the new name [/new]: both opens and
    [fstat] succeed, and the call throws. *)
Lemma copy_file_stat_test_inverted_witness :
  option_map fst (fs.copy_file "/one" "/new" 8 world0)
  = Some (Throw fstat_error).
Proof.
  set (o1 := mem_open "/one" fs_omode.readonly None world0).
  set (o2 := mem_open "/new" (Z.lor fs_omode.writeonly fs_omode.create) None
               (snd o1)).
  set (o3 := mem_fstat (fst o1) (snd o2)).
  assert (E1 : sys_open (c_str "/one") fs_omode.readonly None world0
               = (fst o1, snd o1)) by (vm_compute; reflexivity).
  assert (E2 : sys_open (c_str "/new")
                 (Z.lor fs_omode.writeonly fs_omode.create) None (snd o1)
               = (fst o2, snd o2)) by (vm_compute; reflexivity).
  assert (E3 : sys_fstat (fst o1) (snd o2)
               = ((fst (fst o3), snd (fst o3)), snd o3))
    by (vm_compute; reflexivity).
  assert (H1 : fst o1 ≠ -1) by (vm_compute; discriminate).
  assert (H2 : fst o2 ≠ -1) by (vm_compute; discriminate).
  assert (H3 : fst (fst o3) ≠ -1) by (vm_compute; discriminate).
  destruct (copy_file_stat_test_inverted "/one" "/new" 8
              _ _ _ _ _ _ _ _ E1 H1 E2 H2 E3) as (Hthrow & _).
  rewrite (Hthrow H3). vm_compute. reflexivity.
Defined.

(** C1: [copy_file] does not end normally for a source of size 0, of size
    1, or of size 10 with a transfer chunk of 4.  Each run throws the error
    labelled [fstat()]; the destination has been created and is empty, so
    for the two non-empty sources it differs from the source. *)
Theorem copy_file_throws_at_every_size (fuel : nat) :
  (∃ w', fs.copy_file "/empty" "/new" fuel world0 = Some (Throw fstat_error, w')
         ∧ content "/empty" w' = Some []
         ∧ content "/new" w' = Some [])
  ∧ (∃ w', fs.copy_file "/one" "/new" fuel world0 = Some (Throw fstat_error, w')
           ∧ content "/one" w' = Some (bytes_of "a")
           ∧ content "/new" w' = Some [])
  ∧ (∃ w', fs.copy_file "/big" "/new" fuel world0 = Some (Throw fstat_error, w')
           ∧ content "/big" w' = Some (bytes_of "0123456789")
           ∧ content "/new" w' = Some []
           ∧ (w_chunk w' < length (bytes_of "0123456789"))%nat).
Proof.
  conjs.
  - exists (final (fs.copy_file "/empty" "/new" fuel world0)).
    conjs; vm_compute; reflexivity.
  - exists (final (fs.copy_file "/one" "/new" fuel world0)).
    conjs; vm_compute; reflexivity.
  - exists (final (fs.copy_file "/big" "/new" fuel world0)).
    conjs; vm_compute; try reflexivity. lia.
Qed.

(** C10: copying the ten-byte [/big] onto the existing fifteen-byte [/old]
    throws the error labelled [fstat()] and leaves [/old] as it was, all
    fifteen bytes: nothing is written from offset zero.  (The destination
    flags do lack the truncate bit.) *)
Theorem copy_file_leaves_existing_destination (fuel : nat) :
  Z.land (Z.lor fs_omode.writeonly fs_omode.create) fs_omode.truncate = 0
  ∧ content "/old" world0 = Some (bytes_of "OLDOLDOLDOLDOLD")
  ∧ ∃ w', fs.copy_file "/big" "/old" fuel world0 = Some (Throw fstat_error, w')
          ∧ content "/big" w' = Some (bytes_of "0123456789")
          ∧ content "/old" w' = Some (bytes_of "OLDOLDOLDOLDOLD").
Proof.
  conjs; [reflexivity | vm_compute; reflexivity |].
  exists (final (fs.copy_file "/big" "/old" fuel world0)).
  conjs; vm_compute; reflexivity.
Qed.

(** When [fstat] is made to fail and the unwritten size field happens to
    hold the source's size, the loop does run, in three transfers, and
    overwrites the destination in place: the last five old bytes stay. *)
Example copy_file_after_failed_fstat :
  ∃ w', fs.copy_file "/big" "/old" 3 (faulty 10) = Some (Ok tt, w')
        ∧ content "/old" w' = Some (bytes_of "0123456789LDOLD")
        ∧ w_fds w' = ∅
        ∧ fs.copy_file "/big" "/old" 2 (faulty 10) = None.
Proof.
  exists (final (fs.copy_file "/big" "/old" 3 (faulty 10))).
  conjs; vm_compute; reflexivity.
Qed.

(** When the unwritten size field holds more than the source has, the
    transfers return 0 once the source is exhausted and the counter stays
    positive: the loop is still running after 200 iterations. *)
Example copy_file_after_failed_fstat_spins :
  fs.copy_file "/one" "/new" 200 (faulty 7) = None.
Proof. vm_compute. reflexivity. Qed.

End CopyRuns.

(** * Further properties *)

(** ** The copy loop over any OS *)
Section CopyLoop.
Context {W : Type} `{OS W}.

Lemma to_size_t_small (z : Z) : 0 ≤ z < 2 ^ 64 → to_size_t z = z.
Proof.
  intros Hz. unfold to_size_t, SIZE_WIDTH. apply Z.mod_small. exact Hz.
Qed.

Lemma size_max_value : to_size_t (-1) = 2 ^ 64 - 1.
Proof. reflexivity. Qed.

Section Progress.
Variables (rfd wfd : Z) (Inv : W → Z → Prop).
Hypothesis Hstep : ∀ (w w' : W) (len r : Z),
  Inv w len →
  sys_copy_file_range rfd wfd len w = (r, w') →
  0 ≤ r ≤ len ∧ (0 < len → 0 < r) ∧ Inv w' (len - r).

Lemma copy_loop_completes_within (n : nat) :
  ∀ (len : Z) (w : W),
    0 ≤ len ≤ Z.of_nat n → len < 2 ^ 64 - 1 → Inv w len →
    ∃ w', fs.copy_loop (S n) rfd wfd len w = Some (Ok tt, w') ∧ Inv w' 0.
Proof.
  induction n as [|n IH]; intros len w Hlen Hmax Hinv.
  - destruct (sys_copy_file_range rfd wfd len w) as [r w1] eqn:E.
    destruct (Hstep _ _ _ _ Hinv E) as (Hr & _ & Hinv').
    assert (len = 0) as -> by lia. assert (r = 0) as -> by lia.
    exists w1. simpl. rewrite E. split; [reflexivity | exact Hinv'].
  - destruct (sys_copy_file_range rfd wfd len w) as [r w1] eqn:E.
    destruct (Hstep _ _ _ _ Hinv E) as (Hr & Hpos & Hinv').
    rewrite (copy_loop_step _ _ _ _ _ _ _ E);
      rewrite (to_size_t_small r) by lia.
    2: { rewrite size_max_value. lia. }
    rewrite (to_size_t_small (len - r)) by lia.
    destruct (Z.ltb_spec 0 (len - r)) as [Hrest | Hdone].
    + apply IH; [lia | lia | exact Hinv'].
    + assert (len - r = 0) as Hz by lia. rewrite Hz in Hinv'.
      exists w1. split; [reflexivity | exact Hinv'].
Qed.

(** X1: if, in every state [Inv] the loop can be in, a transfer returns a
    count between 0 and the remaining [len], positive when [len] is, and
    leaves a state of [Inv] for the rest, then from any such state with
    [0 <= len < 2^64 - 1] the loop of [copy_file] ends normally within
    [len + 1] iterations, in a state of [Inv] with nothing remaining. *)
Theorem copy_loop_completes (len : Z) (w : W) :
  0 ≤ len < 2 ^ 64 - 1 →
  Inv w len →
  ∃ w', fs.copy_loop (S (Z.to_nat len)) rfd wfd len w = Some (Ok tt, w')
        ∧ Inv w' 0.
Proof.
  intros Hlen Hinv. apply copy_loop_completes_within; [lia | lia | exact Hinv].
Qed.

End Progress.

Section Short.
Variables (rfd wfd : Z) (Inv : W → Z → Prop).
Hypothesis Hshort : ∀ (w w' : W) (len r : Z),
  Inv w len →
  sys_copy_file_range rfd wfd len w = (r, w') →
  0 ≤ r < len ∧ Inv w' (len - r).

(** X2: if, in every state [Inv] the loop can be in, a transfer returns
    less than the remaining [len] (zero at the end of the source included)
    and leaves a state of [Inv] for the rest, then the loop of [copy_file]
    has no exit: it is still running after any number of iterations. *)
Theorem copy_loop_never_ends (fuel : nat) :
  ∀ (w : W) (len : Z),
    len < 2 ^ 64 →
    Inv w len →
    fs.copy_loop fuel rfd wfd len w = None.
Proof.
  induction fuel as [|fuel IH]; intros w len Hmax Hinv; [reflexivity|].
  destruct (sys_copy_file_range rfd wfd len w) as [r w1] eqn:E.
  destruct (Hshort _ _ _ _ Hinv E) as (Hr & Hinv').
  rewrite (copy_loop_step _ _ _ _ _ _ _ E);
    rewrite (to_size_t_small r) by lia.
  2: { rewrite size_max_value. lia. }
  rewrite (to_size_t_small (len - r)) by lia.
  destruct (Z.ltb_spec 0 (len - r)); [|lia].
  apply IH; [lia | exact Hinv'].
Qed.

End Short.

End CopyLoop.

(** ** The calls [copy_file] makes *)
Section Tracing.
Context {W : Type} `{OS W}.

Lemma copy_loop_traced (rfd wfd : Z) (fuel : nat) :
  ∀ (len : Z) (w w' : W) (log : list event) (r : result unit),
    fs.copy_loop fuel rfd wfd len w = Some (r, w') →
    ∃ mid,
      @fs.copy_loop _ traced fuel rfd wfd len (w, log)
        = Some (r, (w', (log ++ mid)%list))
      ∧ mid ≠ []
      ∧ Forall (is_transfer rfd wfd) mid
      ∧ Forall (fun e => is_close e = false) mid.
Proof.
  induction fuel as [|fuel IH]; intros len w w' log r; simpl.
  - discriminate.
  - unfold logged. simpl.
    destruct (sys_copy_file_range rfd wfd len w) as [c w1]. simpl.
    set (ev := mk_event (c_copy_file_range rfd wfd len) c).
    assert (Hev : is_transfer rfd wfd ev) by (eexists _, _; reflexivity).
    destruct (to_size_t c =? to_size_t (-1)).
    + intros [= <- <-]. exists [ev].
      split; [reflexivity|]. split; [discriminate|]. split; repeat constructor.
      exact Hev.
    + destruct (0 <? to_size_t (len - to_size_t c)).
      * intros Hrun.
        destruct (IH _ _ _ (log ++ [ev])%list _ Hrun)
          as (mid & Hmid & _ & Hall & Hnc).
        exists (ev :: mid). rewrite Hmid, <- app_assoc. simpl.
        split; [reflexivity|]. split; [discriminate|].
        split; constructor; auto.
      * intros [= <- <-]. exists [ev].
        split; [reflexivity|]. split; [discriminate|].
        split; repeat constructor. exact Hev.
Qed.

(** X3: on any OS, a run of [copy_file] that ends makes the same calls with
    a log beside it, and the calls are these.  If the run throws, no
    [close] is among them: a descriptor that an open had returned stays
    open.  If the run returns, the calls are the two opens, both
    successful, an [fstat] that returned [-1], at least one transfer
    between the two descriptors, and then [close] of the source and of the
    destination, whatever the two [close] calls return. *)
Theorem copy_file_closes_only_on_return
    (target dest_path : string) (fuel : nat)
    (w w' : W) (log : list event) (r : result unit) :
  fs.copy_file target dest_path fuel w = Some (r, w') →
  ∃ new,
    @fs.copy_file _ traced target dest_path fuel (w, log)
      = Some (r, (w', (log ++ new)%list))
    ∧ match r with
      | Throw _ => Forall (fun e => is_close e = false) new
      | Ok _ =>
          ∃ rfd wfd c1 c2 mid,
            rfd ≠ -1 ∧ wfd ≠ -1
            ∧ new =
                ([mk_event (c_open (c_str target) fs_omode.readonly None) rfd;
                  mk_event (c_open (c_str dest_path)
                              (Z.lor fs_omode.writeonly fs_omode.create) None)
                           wfd;
                  mk_event (c_fstat rfd) (-1)]
                 ++ mid
                 ++ [mk_event (c_close rfd) c1; mk_event (c_close wfd) c2])%list
            ∧ mid ≠ []
            ∧ Forall (is_transfer rfd wfd) mid
      end.
Proof.
  unfold fs.copy_file. simpl. unfold logged. simpl.
  destruct (sys_open (c_str target) fs_omode.readonly None w) as [rfd w1].
  simpl. destruct (Z.eqb_spec rfd (-1)) as [|Hr].
  { intros [= <- <-]. eexists [_]. split; [reflexivity|].
    repeat constructor. }
  destruct (sys_open (c_str dest_path) _ None w1) as [wfd w2].
  simpl. destruct (Z.eqb_spec wfd (-1)) as [|Hw].
  { intros [= <- <-]. eexists [_; _]. rewrite <- app_assoc.
    split; [reflexivity|]. repeat constructor. }
  destruct (sys_fstat rfd w2) as [[c st] w3]. simpl.
  destruct (Z.eqb_spec c (-1)) as [->|Hc]; simpl.
  2: { intros [= <- <-]. eexists [_; _; _]. rewrite <- !app_assoc.
       split; [reflexivity|]. repeat constructor. }
  set (log3 := (((log ++ _) ++ _) ++ _)%list).
  destruct (fs.copy_loop fuel rfd wfd (to_size_t (st_size st)) w3)
    as [[[[]|e] w4]|] eqn:E; [| |discriminate].
  - destruct (copy_loop_traced rfd wfd fuel _ _ _ log3 _ E)
      as (mid & -> & Hne & Hall & _).
    simpl. unfold logged. simpl.
    destruct (sys_close rfd w4) as [c1 w5]. simpl.
    destruct (sys_close wfd w5) as [c2 w6]. simpl.
    intros [= <- <-]. eexists. split.
    + subst log3. rewrite <- !app_assoc. simpl. reflexivity.
    + exists rfd, wfd, c1, c2, mid. simpl.
      split; [exact Hr|]. split; [exact Hw|]. split; [reflexivity|].
      split; [exact Hne | exact Hall].
  - destruct (copy_loop_traced rfd wfd fuel _ _ _ log3 _ E)
      as (mid & -> & Hne & _ & Hnc).
    intros [= <- <-]. eexists. split.
    + subst log3. rewrite <- !app_assoc. simpl. reflexivity.
    + repeat (constructor; [reflexivity|]). exact Hnc.
Qed.

End Tracing.

(** ** Paths and keys *)

Lemma c_str_idempotent (s : string) : c_str (c_str s) = c_str s.
Proof.
  induction s as [|c s IH]; simpl; [reflexivity|].
  destruct (Ascii.eqb c Ascii.zero) eqn:E; simpl; [reflexivity|].
  rewrite E, IH. reflexivity.
Qed.

Lemma c_str_no_nul (s : string) : has_nul (c_str s) = false.
Proof.
  induction s as [|c s IH]; simpl; [reflexivity|].
  destruct (Ascii.eqb c Ascii.zero) eqn:E; simpl; [reflexivity|].
  unfold NUL. rewrite E, IH. reflexivity.
Qed.

Lemma c_str_id (s : string) : has_nul s = false → c_str s = s.
Proof.
  induction s as [|c s IH]; simpl; [reflexivity|].
  unfold NUL. destruct (Ascii.eqb c Ascii.zero); simpl; [discriminate|].
  intros Hs. rewrite IH by exact Hs. reflexivity.
Qed.

Lemma c_str_cut (s rest : string) :
  c_str (s ++ String NUL rest) = c_str s.
Proof.
  induction s as [|c s IH]; simpl; [reflexivity|].
  rewrite IH. reflexivity.
Qed.

Section Paths.
Context {W : Type} `{OS W}.

Lemma run_op_c_str (fuel : nat) (o : operation) (w : W) :
  run_op fuel (on_paths c_str o) w = run_op fuel o w.
Proof.
  destruct o; simpl; try reflexivity;
    try match goal with p : exists_pred |- _ => destruct p; simpl end;
    try match goal with p : type_pred |- _ => destruct p; simpl end;
    unfold fs.open_file, fs.open_file_mode, fs.file_size,
      fs.is_file_exists, fs.is_directory_exists, fs.is_symlink_exists,
      fs.copy_file, fs.create_symlink, fs.create_hardlink,
      fs.get_permissions, fs.remove_file, fs.remove_empty_directory,
      fs.create_directory, fs.rename_path, fs.is_env_exists, fs.read_env,
      fs.is_block_file, fs.is_character_file, fs.is_directory, fs.is_pipe,
      fs.is_fifo, fs.is_symlink, fs.is_regular_file, fs.is_socket,
      fs.is_file_match, fs.get_file_type;
    rewrite ?c_str_idempotent; reflexivity.
Qed.

(** X4: whatever follows a NUL character in a path or key is ignored.  For
    every operation, appending a NUL and any text to each of its string
    arguments changes neither the result nor the world it ends in: the
    OS call is made on the text before the first NUL. *)
Theorem text_after_nul_is_ignored
    (fuel : nat) (o : operation) (rest : string) (w : W) :
  run_op fuel (on_paths (fun s => s ++ String NUL rest) o) w
  = run_op fuel o w.
Proof.
  rewrite <- (run_op_c_str fuel (on_paths _ o)), <- (run_op_c_str fuel o).
  f_equal. destruct o; simpl; rewrite ?c_str_cut; reflexivity.
Qed.

(** X5: [is_symlink_exists] and [is_symlink] make the same [lstat] call and
    give the same result, error and world in every case but one: when
    [lstat] fails with [ENOENT], the first returns [false] and the second
    throws. *)
Theorem symlink_checks_differ_only_on_enoent
    (path : string) (w w1 : W) (r : Z) (st : stat) :
  sys_lstat (c_str path) w = ((r, st), w1) →
  (r = -1 → errno w1 = ENOENT →
     fs.is_symlink_exists path w = (Ok false, w1)
     ∧ fs.is_symlink path w = (Throw (fs_error.get "lstat()" w1), w1))
  ∧ (¬ (r = -1 ∧ errno w1 = ENOENT) →
       fs.is_symlink_exists path w = fs.is_symlink path w).
Proof.
  intros E.
  pose proof (run_exists_run ESymlink path w) as He. simpl in He.
  unfold stat_call in He. rewrite E in He.
  unfold fs.is_symlink. rewrite is_file_match_run, E, He.
  destruct (Z.eqb_spec r (-1)), (Z.eqb_spec (errno w1) ENOENT);
    (split; [intros; try contradiction; try (split; reflexivity)
            | intros Hn; try reflexivity; exfalso; apply Hn; split; assumption]).
Qed.

(** X6: on a path for which [stat] and [lstat] succeed with the same
    answer (a path that is not a symbolic link), [is_file_exists] equals
    [is_regular_file], [is_directory_exists] equals [is_directory],
    [is_symlink_exists] equals [is_symlink], and [get_file_type] is
    [get_permissions] masked with [S_IFMT]: [get_permissions] returns the
    whole mode, type bits included. *)
Theorem checks_agree_off_symlinks
    (path : string) (w w1 : W) (r : Z) (st : stat) :
  sys_stat (c_str path) w = ((r, st), w1) →
  sys_lstat (c_str path) w = ((r, st), w1) →
  r ≠ -1 →
  fs.is_file_exists path w = fs.is_regular_file path w
  ∧ fs.is_directory_exists path w = fs.is_directory path w
  ∧ fs.is_symlink_exists path w = fs.is_symlink path w
  ∧ fs.get_permissions path w = (Ok (st_mode st), w1)
  ∧ fs.get_file_type path w = (Ok (Z.land (st_mode st) S_IFMT), w1).
Proof.
  intros Es El Hr.
  pose proof (run_exists_run EFile path w) as Hf.
  pose proof (run_exists_run EDirectory path w) as Hd.
  pose proof (run_exists_run ESymlink path w) as Hs.
  unfold stat_call in Hf, Hd, Hs. simpl in Hf, Hd, Hs.
  rewrite Es in Hf, Hd. rewrite El in Hs.
  unfold fs.is_regular_file, fs.is_directory, fs.is_symlink.
  rewrite !is_file_match_run, get_file_type_run, El, Hf, Hd, Hs.
  unfold fs.get_permissions. run_monad. rewrite Es. simpl.
  destruct (Z.eqb_spec r (-1)); [contradiction|].
  split; [reflexivity|]. split; [reflexivity|]. split; [reflexivity|].
  split; reflexivity.
Qed.

(** X7: on the same path in the same world, [is_file_exists] and
    [is_directory_exists] end in the same world, throw the same error or
    neither throws, and are never both [true]. *)
Theorem file_and_directory_checks_exclude (path : string) (w : W) :
  snd (fs.is_file_exists path w) = snd (fs.is_directory_exists path w)
  ∧ (∀ e, fst (fs.is_file_exists path w) = Throw e
          ↔ fst (fs.is_directory_exists path w) = Throw e)
  ∧ ¬ (fst (fs.is_file_exists path w) = Ok true
       ∧ fst (fs.is_directory_exists path w) = Ok true).
Proof.
  pose proof (run_exists_run EFile path w) as Hf.
  pose proof (run_exists_run EDirectory path w) as Hd.
  unfold stat_call in Hf, Hd. simpl in Hf, Hd. rewrite Hf, Hd.
  destruct (sys_stat (c_str path) w) as [[r st] w1].
  destruct (r =? -1); [destruct (errno w1 =? ENOENT)|]; simpl.
  - split; [reflexivity|]. split; [intros e; split; discriminate|].
    intros [[=] _].
  - split; [reflexivity|]. split; [intros e; split; auto|].
    intros [[=] _].
  - split; [reflexivity|]. split; [intros e; split; discriminate|].
    intros [[= Hf'] [= Hd']]. apply Z.eqb_eq in Hf', Hd'.
    rewrite Hf' in Hd'. discriminate Hd'.
Qed.

(** X8: when [is_file_exists] answers [true], then [file_size] and
    [get_permissions] on the same path in the same world do not throw, end
    in the same world as the check, and the permissions returned carry the
    regular-file type bits. *)
Theorem exists_then_size_and_permissions (path : string) (w : W) :
  fst (fs.is_file_exists path w) = Ok true →
  ∃ size perms,
    fs.file_size path w = (Ok size, snd (fs.is_file_exists path w))
    ∧ fs.get_permissions path w = (Ok perms, snd (fs.is_file_exists path w))
    ∧ Z.land perms S_IFMT = S_IFREG.
Proof.
  pose proof (run_exists_run EFile path w) as Hf.
  unfold stat_call in Hf. simpl in Hf. rewrite Hf.
  unfold fs.file_size, fs.get_permissions. run_monad.
  destruct (sys_stat (c_str path) w) as [[r st] w1]. simpl.
  destruct (r =? -1); [destruct (errno w1 =? ENOENT)|]; simpl;
    try discriminate.
  intros [= Hm]. apply Z.eqb_eq in Hm. eexists _, _.
  split; [reflexivity|]. split; [reflexivity | exact Hm].
Qed.

Ltac destruct_call :=
  match goal with
  | |- context [sys_open ?a ?b ?c ?w] => destruct (sys_open a b c w) as [? ?]
  | |- context [sys_close ?a ?w] => destruct (sys_close a w) as [? ?]
  | |- context [sys_read ?a ?b ?w] => destruct (sys_read a b w) as [[? ?] ?]
  | |- context [sys_write ?a ?b ?c ?w] =>
      destruct (sys_write a b c w) as [? ?]
  | |- context [sys_stat ?a ?w] => destruct (sys_stat a w) as [[? ?] ?]
  | |- context [sys_lstat ?a ?w] => destruct (sys_lstat a w) as [[? ?] ?]
  | |- context [sys_fstat ?a ?w] => destruct (sys_fstat a w) as [[? ?] ?]
  | |- context [sys_symlink ?a ?b ?w] => destruct (sys_symlink a b w) as [? ?]
  | |- context [sys_link ?a ?b ?w] => destruct (sys_link a b w) as [? ?]
  | |- context [sys_unlink ?a ?w] => destruct (sys_unlink a w) as [? ?]
  | |- context [sys_remove ?a ?w] => destruct (sys_remove a w) as [? ?]
  | |- context [sys_mkdir ?a ?b ?w] => destruct (sys_mkdir a b w) as [? ?]
  | |- context [sys_rename ?a ?b ?w] => destruct (sys_rename a b w) as [? ?]
  end; simpl.

Ltac throw_or_not :=
  run_monad;
  repeat match goal with
         | |- context [if ?b then _ else _] => destruct b; simpl
         | |- context [match sys_getenv ?k ?w with _ => _ end] =>
             destruct (sys_getenv k w); simpl
         end;
  eexists _, _; split; reflexivity.

(** X9: every operation other than [copy_file] ends, and it throws if and
    only if the OS call behind it reported failure: the integer [-1] (any
    other value, negative ones included, is a normal return), the null
    pointer for [current_directory] and [read_env], and for the three
    existence checks [-1] with an [errno] other than [ENOENT];
    [is_env_exists] never throws. *)
Theorem throws_iff_call_fails
    (fuel : nat) (o : operation) (w : W) (b : bool) :
  call_fails o w = Some b →
  ∃ r w', run_op fuel o w = Some (r, w') ∧ is_throw r = b.
Proof.
  destruct o; simpl; intros [= <-];
    try match goal with p : exists_pred |- _ => destruct p; simpl end;
    try rewrite run_pred_is_file_match;
    unfold stat_call, fs.open_file, fs.open_file_mode, fs.close_file,
      fs.read_object, fs.write_object, fs.file_size, fs.file_size_fd,
      fs.is_file_exists, fs.is_directory_exists, fs.is_symlink_exists,
      fs.create_symlink, fs.create_hardlink, fs.get_permissions,
      fs.remove_file, fs.remove_empty_directory, fs.create_directory,
      fs.rename_path, fs.is_env_exists, fs.current_directory, fs.read_env,
      fs.is_file_match, fs.get_file_type;
    run_monad; try destruct_call; throw_or_not.
Qed.

End Paths.

(** ** The wrappers on the in-memory OS *)
Section MemRuns.
Import MemFS MemFacts.

Lemma find_free_ge {A} (n : nat) : ∀ (from : Z) (m : gmap Z A),
  from ≤ find_free n from m.
Proof.
  induction n as [|n IH]; intros from m; simpl; [lia|].
  destruct (m !! from); [|lia]. specialize (IH (from + 1) m). lia.
Qed.

Lemma fresh_fd_valid {A} (m : gmap Z A) : (fresh_key 3 m =? -1) = false.
Proof.
  apply Z.eqb_neq. unfold fresh_key.
  pose proof (find_free_ge (size m) 3 m). lia.
Qed.

Lemma resolve_absent (n : nat) (w : world) (p : string) :
  lookup_name w p = None → resolve n w p = inl ENOENT.
Proof. intros E. destruct n; simpl; rewrite E; reflexivity. Qed.

Lemma resolve_reg (n : nat) (w : world) (p : string)
    (ino perm : Z) (data : list byte) :
  lookup_name w p = Some (ino, Reg perm data) →
  resolve n w p = inr (ino, Reg perm data).
Proof. intros E. destruct n; simpl; rewrite E; reflexivity. Qed.

#[local] Arguments MemFS.resolve : simpl never.

Lemma lookup_name_inv (w : world) (p : string) (ino : Z) (n : node) :
  lookup_name w p = Some (ino, n) →
  w_names w !! p = Some ino ∧ w_inodes w !! ino = Some n.
Proof.
  unfold lookup_name. destruct (w_names w !! p) as [i|]; [|discriminate].
  destruct (w_inodes w !! i) as [m|] eqn:E; [|discriminate].
  intros [= <- <-]. split; [reflexivity | exact E].
Qed.

Lemma mem_open_creates (p : string) (flags : Z) (mode : option Z) (w : world) :
  w_names w !! p = None →
  has_flag flags O_CREAT = true →
  mem_open p flags mode w
  = let ino := fresh_key 1 (w_inodes w) in
    alloc_fd ino flags
      (set_names (<[p := ino]> (w_names w))
         (set_inodes
            (<[ino := Reg (Z.land (default (w_junk_mode w) mode) 0xfff) []]>
               (w_inodes w)) w)).
Proof.
  intros Hname Hcreat. unfold mem_open.
  rewrite resolve_absent by (unfold lookup_name; rewrite Hname; reflexivity).
  rewrite Hname, Hcreat. reflexivity.
Qed.

Lemma mem_open_regular (p : string) (flags : Z) (mode : option Z) (w : world)
    (ino perm : Z) (data : list byte) :
  lookup_name w p = Some (ino, Reg perm data) →
  has_flag flags O_CREAT = false →
  has_flag flags O_TRUNC = false →
  mem_open p flags mode w = alloc_fd ino flags w.
Proof.
  intros Hname Hcreat Htrunc. unfold mem_open.
  rewrite (resolve_reg _ _ _ _ _ _ Hname), Hcreat, Htrunc. reflexivity.
Qed.

Lemma mem_write_object (fd : Z) (buf : list byte) (n : Z) (w : world)
    (o : ofd) (perm : Z) (data : list byte) :
  w_fds w !! fd = Some o →
  (accmode (ofd_flags o) =? O_RDONLY) = false →
  has_flag (ofd_flags o) O_APPEND = false →
  w_inodes w !! ofd_ino o = Some (Reg perm data) →
  let src := take (Nat.min (Z.to_nat n) (w_chunk w)) buf in
  fs.write_object fd buf n w
  = (Ok (Z.of_nat (length src)),
     set_pos fd o (ofd_pos o + length src)%nat
       (set_inodes
          (<[ofd_ino o := Reg perm (splice (ofd_pos o) src data)]> (w_inodes w))
          w)).
Proof.
  intros Hfd Hacc Happ Hino src. rewrite write_object_run.
  change (sys_write fd buf n w) with (mem_write fd buf n w).
  unfold mem_write. rewrite Hfd, Hacc, Hino, Happ. fold src.
  destruct (Z.eqb_spec (Z.of_nat (length src)) (-1)); [lia | reflexivity].
Qed.

Lemma mem_read_object (fd n : Z) (w : world)
    (o : ofd) (perm : Z) (data : list byte) :
  w_fds w !! fd = Some o →
  (accmode (ofd_flags o) =? O_WRONLY) = false →
  w_inodes w !! ofd_ino o = Some (Reg perm data) →
  let got := take (Nat.min (Z.to_nat n) (w_chunk w)) (drop (ofd_pos o) data) in
  fs.read_object fd n w
  = (Ok (Z.of_nat (length got), got),
     set_pos fd o (ofd_pos o + length got)%nat w).
Proof.
  intros Hfd Hacc Hino got. rewrite read_object_run.
  change (sys_read fd n w) with (mem_read fd n w).
  unfold mem_read. rewrite Hfd, Hacc, Hino. fold got.
  destruct (Z.eqb_spec (Z.of_nat (length got)) (-1)); [lia | reflexivity].
Qed.

Lemma mem_close_file (fd : Z) (w : world) (o : ofd) :
  w_fds w !! fd = Some o →
  fs.close_file fd w = (Ok tt, set_fds (delete fd (w_fds w)) w).
Proof.
  intros Hfd. unfold fs.close_file, bind, sys.
  change (sys_close fd w) with (mem_close fd w).
  unfold mem_close. rewrite Hfd. reflexivity.
Qed.

Lemma mem_file_size_fd (fd : Z) (w : world) (o : ofd) (n : node) :
  w_fstat_error w = None →
  w_fds w !! fd = Some o →
  w_inodes w !! ofd_ino o = Some n →
  fs.file_size_fd fd w = (Ok (st_size (stat_of n)), w).
Proof.
  intros Hfault Hfd Hino. unfold fs.file_size_fd, bind, sys.
  change (sys_fstat fd w) with (mem_fstat fd w).
  unfold mem_fstat. rewrite Hfault, Hfd, Hino. reflexivity.
Qed.

Lemma mem_open_file_regular (p : string) (flags : Z) (w : world)
    (ino perm : Z) (data : list byte) :
  c_str p = p →
  lookup_name w p = Some (ino, Reg perm data) →
  has_flag flags O_CREAT = false →
  has_flag flags O_TRUNC = false →
  fs.open_file p flags w
  = (Ok (fresh_key 3 (w_fds w)),
     set_fds (<[fresh_key 3 (w_fds w) := mk_ofd ino 0 flags]> (w_fds w)) w).
Proof.
  intros Hp Hname Hcreat Htrunc. unfold fs.open_file, bind, sys. rewrite Hp.
  change (sys_open p flags None w) with (mem_open p flags None w).
  rewrite (mem_open_regular _ _ _ _ _ _ _ Hname Hcreat Htrunc).
  unfold alloc_fd. rewrite fresh_fd_valid. reflexivity.
Qed.

Lemma mem_open_file_mode_creates (p : string) (flags mode : Z) (w : world) :
  c_str p = p →
  w_names w !! p = None →
  has_flag flags O_CREAT = true →
  let ino := fresh_key 1 (w_inodes w) in
  let fd := fresh_key 3 (w_fds w) in
  fs.open_file_mode p flags mode w
  = (Ok fd,
     set_fds (<[fd := mk_ofd ino 0 flags]> (w_fds w))
       (set_names (<[p := ino]> (w_names w))
          (set_inodes (<[ino := Reg (Z.land mode 0xfff) []]> (w_inodes w)) w))).
Proof.
  intros Hp Hname Hcreat ino fd. unfold fs.open_file_mode, bind, sys.
  rewrite Hp.
  change (sys_open p flags (Some mode) w) with (mem_open p flags (Some mode) w).
  rewrite (mem_open_creates _ _ _ _ Hname Hcreat).
  unfold alloc_fd. simpl. rewrite fresh_fd_valid. reflexivity.
Qed.

Lemma mem_is_file_exists_absent (p : string) (w : world) :
  c_str p = p →
  w_names w !! p = None →
  fs.is_file_exists p w = (Ok false, set_errno ENOENT w).
Proof.
  intros Hp Hname.
  pose proof (run_exists_run EFile p w) as Hrun. simpl in Hrun.
  rewrite Hrun, Hp. unfold stat_call.
  change (sys_stat p w) with (mem_stat p w). unfold mem_stat.
  rewrite resolve_absent by (unfold lookup_name; rewrite Hname; reflexivity).
  reflexivity.
Qed.

Lemma mem_is_file_exists_regular (p : string) (w : world)
    (ino perm : Z) (data : list byte) :
  c_str p = p →
  lookup_name w p = Some (ino, Reg perm data) →
  Z.land perm S_IFMT = 0 →
  fs.is_file_exists p w = (Ok true, w).
Proof.
  intros Hp Hname Hperm.
  pose proof (run_exists_run EFile p w) as Hrun. simpl in Hrun.
  rewrite Hrun, Hp. unfold stat_call.
  change (sys_stat p w) with (mem_stat p w). unfold mem_stat.
  rewrite (resolve_reg _ _ _ _ _ _ Hname). simpl.
  rewrite Z.land_lor_distr_l, Hperm. reflexivity.
Qed.

Lemma mem_remove_file (p : string) (w : world)
    (ino perm : Z) (data : list byte) :
  c_str p = p →
  lookup_name w p = Some (ino, Reg perm data) →
  fs.remove_file p w = (Ok tt, set_names (delete p (w_names w)) w).
Proof.
  intros Hp Hname. unfold fs.remove_file, bind, sys. rewrite Hp.
  change (sys_unlink p w) with (mem_unlink p w).
  unfold mem_unlink. rewrite Hname. reflexivity.
Qed.

Lemma mem_file_size_regular (p : string) (w : world)
    (ino perm : Z) (data : list byte) :
  c_str p = p →
  lookup_name w p = Some (ino, Reg perm data) →
  fs.file_size p w = (Ok (Z.of_nat (length data)), w).
Proof.
  intros Hp Hname. unfold fs.file_size, bind, sys. rewrite Hp.
  change (sys_stat p w) with (mem_stat p w). unfold mem_stat.
  rewrite (resolve_reg _ _ _ _ _ _ Hname). reflexivity.
Qed.

(** *** The copy loop *)

Lemma take_min {A} (c : nat) (l : list A) :
  take c l = take (Nat.min c (length l)) l.
Proof.
  destruct (Nat.le_gt_cases c (length l)).
  - rewrite Nat.min_l by lia. reflexivity.
  - rewrite Nat.min_r by lia. rewrite !take_ge by lia. reflexivity.
Qed.

Lemma splice_into_empty (src : list byte) : splice 0 src [] = src.
Proof. unfold splice. simpl. rewrite drop_nil, app_nil_r. reflexivity. Qed.

Lemma splice_next (done c : nat) (src dst : list byte) :
  (done + c ≤ length src)%nat →
  splice done (take c (drop done src)) (take done src ++ drop done dst)%list
  = (take (done + c) src ++ drop (done + c) dst)%list.
Proof.
  intros Hb. unfold splice.
  assert (Hl : length (take done src) = done) by (rewrite length_take; lia).
  assert (Hc : length (take c (drop done src)) = c)
    by (rewrite length_take, length_drop; lia).
  rewrite Hc.
  rewrite take_app_length' by (symmetry; exact Hl).
  rewrite length_app, Hl.
  replace (done - (done + length (drop done dst)))%nat with 0%nat by lia.
  simpl.
  rewrite drop_app_ge by lia. rewrite Hl.
  replace (done + c - done)%nat with c by lia.
  rewrite drop_drop, app_assoc, take_take_drop. reflexivity.
Qed.

(** One transfer of a copy in progress: it moves what the source still
    has, up to the chunk and the count asked for, and leaves a copy in
    progress for the rest. *)
Lemma mem_copy_step (rfd wfd rino wino : Z) (src dst : list byte)
    (extra : Z) (w w' : world) (len r : Z) :
  0 ≤ extra →
  copying rfd wfd rino wino src dst extra w len →
  sys_copy_file_range rfd wfd len w = (r, w') →
  0 ≤ r ≤ len - extra
  ∧ (extra < len → 0 < r)
  ∧ copying rfd wfd rino wino src dst extra w' (len - r).
Proof.
  intros Hex
    [done rflags wflags rperm wperm Hr Hw Hfd Hino Hrd Hwr Hap Hs Hd Hch Hb ->].
  simpl. unfold mem_copy_file_range.
  rewrite Hr, Hw. simpl. rewrite Hrd, Hwr, Hap. simpl. rewrite Hs, Hd.
  set (c := Nat.min (Z.to_nat (Z.of_nat (length src - done) + extra))
                    (w_chunk w)).
  rewrite (take_min c (drop done src)), length_drop.
  set (k := Nat.min c (length src - done)).
  assert (Hk : length (take k (drop done src)) = k)
    by (rewrite length_take, length_drop; lia).
  rewrite Hk. intros [= <- <-].
  split; [lia|]. split; [lia|].
  rewrite splice_next by lia.
  eapply (mk_copying _ _ _ _ _ _ _ _ _ (done + k)%nat rflags wflags rperm wperm);
    simpl; try assumption; try reflexivity.
  - rewrite lookup_insert_ne by congruence. apply lookup_insert_eq.
  - apply lookup_insert_eq.
  - rewrite lookup_insert_ne by congruence. exact Hs.
  - apply lookup_insert_eq.
  - lia.
  - lia.
Qed.

Lemma copying_finished (rfd wfd rino wino : Z) (src dst : list byte)
    (w : world) :
  copying rfd wfd rino wino src dst 0 w 0 →
  file_data rino w = Some src
  ∧ file_data wino w = Some (src ++ drop (length src) dst)%list.
Proof.
  intros [done rflags wflags rperm wperm _ _ _ _ _ _ _ Hs Hd _ Hb Hlen].
  unfold file_data. rewrite Hs, Hd.
  assert (done = length src) as -> by lia.
  rewrite take_ge by lia. split; reflexivity.
Qed.

(** X10: on the in-memory OS, when the source descriptor reads a regular
    file holding [src] and the destination descriptor writes another
    regular file holding [dst], both at offset 0 and not in append mode,
    the loop of [copy_file] started with the length of [src] ends normally
    within that many iterations plus one; the source is unchanged and the
    destination holds [src] followed by the bytes of [dst] beyond the
    length of [src]: it is overwritten in place, not cut. *)
Theorem mem_copy_loop_copies (rfd wfd rino wino : Z) (src dst : list byte)
    (w : world) :
  copying rfd wfd rino wino src dst 0 w (Z.of_nat (length src)) →
  Z.of_nat (length src) < 2 ^ 64 - 1 →
  ∃ w', fs.copy_loop (S (length src)) rfd wfd (Z.of_nat (length src)) w
        = Some (Ok tt, w')
        ∧ file_data rino w' = Some src
        ∧ file_data wino w' = Some (src ++ drop (length src) dst)%list.
Proof.
  intros Hstart Hmax.
  destruct (copy_loop_completes_within rfd wfd
              (copying rfd wfd rino wino src dst 0)) with
    (n := length src) (len := Z.of_nat (length src)) (w := w)
    as (w' & Hrun & Hend); try lia; try assumption.
  - intros w0 w0' len r Hinv Hcall.
    destruct (mem_copy_step _ _ _ _ _ _ _ _ _ _ _ (Z.le_refl 0) Hinv Hcall)
      as (Hr & Hpos & Hinv').
    split; [lia|]. split; [exact Hpos | exact Hinv'].
  - exists w'. split; [exact Hrun|]. apply copying_finished with rfd wfd.
    exact Hend.
Qed.

(** *** The demonstration program *)

(** What [main] writes in one call that moves [k] characters. *)
Lemma main_first_write (k : nat) :
  (k ≤ 12)%nat → take k test.a_c_str = take k (list_byte_of_string test.a).
Proof.
  intros Hk. unfold test.a_c_str. rewrite take_app_le; [reflexivity|].
  change (length (list_byte_of_string test.a)) with 12%nat. exact Hk.
Qed.

(** [main] from the open with create on, in a world where the name is
    free. *)
Lemma main_after_check (w : world) :
  w_names w !! test.file = None →
  w_fstat_error w = None →
  let k := Nat.min 12 (w_chunk w) in
  ∃ w',
    (let* wfd := fs.open_file_mode test.file
                   (Z.lor fs_omode.create fs_omode.read_write)
                   fs_perms.owner_read in
     let* _ := fs.write_object wfd test.a_c_str
                 (Z.of_nat (String.length test.a)) in
     let* _ := fs.close_file wfd in
     let* rfd := fs.open_file test.file fs_omode.readonly in
     let* sz := fs.file_size_fd rfd in
     let* r := fs.read_object rfd (to_size_t sz) in
     let* _ := fs.close_file rfd in
     ret r) w
    = (Ok (Z.of_nat k, take k (list_byte_of_string test.a)), w')
    ∧ content test.file w' = Some (take k (list_byte_of_string test.a)).
Proof.
  intros Hname Hfault k.
  assert (Hk : (k ≤ 12)%nat) by (subst k; lia).
  assert (Hlen : length (take k (list_byte_of_string test.a)) = k).
  { rewrite length_take.
    change (length (list_byte_of_string test.a)) with 12%nat. lia. }
  unfold bind.
  rewrite mem_open_file_mode_creates by (try exact Hname; reflexivity).
  cbv zeta.
  set (ino := fresh_key 1 (w_inodes w)).
  set (fd := fresh_key 3 (w_fds w)).
  set (flags := Z.lor fs_omode.create fs_omode.read_write).
  change (Z.of_nat (String.length test.a)) with 12.
  erewrite mem_write_object; cycle 1.
  { simpl. apply lookup_insert_eq. }
  { reflexivity. }
  { reflexivity. }
  { simpl. apply lookup_insert_eq. }
  cbv zeta. simpl ofd_pos. simpl ofd_ino. simpl w_chunk.
  change (Z.to_nat 12) with 12%nat. fold k.
  rewrite (main_first_write k Hk), splice_into_empty, Hlen.
  erewrite mem_close_file; cycle 1.
  { simpl. apply lookup_insert_eq. }
  erewrite mem_open_file_regular; cycle 1.
  { reflexivity. }
  { unfold lookup_name. simpl. rewrite lookup_insert_eq, lookup_insert_eq.
    reflexivity. }
  { reflexivity. }
  { reflexivity. }
  match goal with |- context [fs.file_size_fd ?f _] => set (fd2 := f) end.
  erewrite mem_file_size_fd; cycle 1.
  { exact Hfault. }
  { simpl. apply lookup_insert_eq. }
  { simpl. apply lookup_insert_eq. }
  simpl stat_of. simpl st_size. rewrite Hlen.
  rewrite (to_size_t_small (Z.of_nat k)) by lia.
  erewrite mem_read_object; cycle 1.
  { simpl. apply lookup_insert_eq. }
  { reflexivity. }
  { simpl. apply lookup_insert_eq. }
  cbv zeta. simpl ofd_pos. simpl w_chunk. rewrite Nat2Z.id, drop_0.
  replace (Nat.min k (w_chunk w)) with k by (subst k; lia).
  rewrite take_ge by lia. rewrite Hlen.
  erewrite mem_close_file; cycle 1.
  { simpl. apply lookup_insert_eq. }
  eexists. split; [reflexivity|].
  unfold content. erewrite resolve_reg; [reflexivity|].
  unfold lookup_name. simpl. rewrite lookup_insert_eq, lookup_insert_eq.
  reflexivity.
Qed.

(** X11: on the in-memory OS, when [test.txt] is free or names a regular
    file, and [fstat] works, [main] of the demonstration program ends
    normally; what it reads back, and what [test.txt] then holds, is the
    first [k] of the twelve characters of [a], where [k] is what one
    [write] call transfers (all twelve when a transfer can move that many).
    [main] issues one [write] and does not repeat a short one. *)
Theorem main_reads_back_what_it_wrote (w : world) :
  (w_names w !! test.file = None
   ∨ ∃ ino perm data,
       lookup_name w test.file = Some (ino, Reg perm data)
       ∧ Z.land perm S_IFMT = 0) →
  w_fstat_error w = None →
  let k := Nat.min 12 (w_chunk w) in
  ∃ w', test.main w
        = (Ok (Z.of_nat k, take k (list_byte_of_string test.a)), w')
        ∧ content test.file w' = Some (take k (list_byte_of_string test.a)).
Proof.
  intros Hcase Hfault k. unfold test.main. unfold bind at 1.
  destruct Hcase as [Hname | (ino & perm & data & Hname & Hperm)].
  - rewrite (mem_is_file_exists_absent test.file w eq_refl Hname).
    unfold bind at 1, ret at 1.
    apply (main_after_check (set_errno ENOENT w)); assumption.
  - rewrite (mem_is_file_exists_regular test.file w _ _ _ eq_refl Hname Hperm).
    unfold bind at 1.
    rewrite (mem_remove_file test.file w _ _ _ eq_refl Hname).
    apply (main_after_check (set_names (delete test.file (w_names w)) w)).
    + simpl. apply lookup_delete_eq.
    + exact Hfault.
Qed.

(** *** Renaming *)

(** On the in-memory OS, [rename_path] of a regular file to a free name
    succeeds; afterwards [is_file_exists] is [false] and [file_size]
    throws for the old name, and for the new name [is_file_exists] is
    [true], [file_size] is the length of the file's bytes, and the bytes
    are the same. *)
Theorem rename_moves_a_regular_file (old_path new_path : string) (w : world)
    (ino perm : Z) (data : list byte) :
  c_str old_path = old_path →
  c_str new_path = new_path →
  old_path ≠ new_path →
  lookup_name w old_path = Some (ino, Reg perm data) →
  Z.land perm S_IFMT = 0 →
  w_names w !! new_path = None →
  ∃ w1,
    fs.rename_path old_path new_path w = (Ok tt, w1)
    ∧ fst (fs.is_file_exists old_path w1) = Ok false
    ∧ is_throw (fst (fs.file_size old_path w1)) = true
    ∧ fs.is_file_exists new_path w1 = (Ok true, w1)
    ∧ fs.file_size new_path w1 = (Ok (Z.of_nat (length data)), w1)
    ∧ content new_path w1 = Some data.
Proof.
  intros Ho Hn Hne Hname Hperm _.
  destruct (lookup_name_inv _ _ _ _ Hname) as [Hnm Hino].
  set (w1 := set_names (<[new_path := ino]> (delete old_path (w_names w))) w).
  assert (Hnew : lookup_name w1 new_path = Some (ino, Reg perm data)).
  { unfold lookup_name, w1. simpl. rewrite lookup_insert_eq, Hino.
    reflexivity. }
  assert (Hold : w_names w1 !! old_path = None).
  { unfold w1. simpl. rewrite lookup_insert_ne by congruence.
    apply lookup_delete_eq. }
  exists w1. split; [|split; [|split; [|split; [|split]]]].
  - unfold fs.rename_path, bind, sys. rewrite Ho, Hn.
    change (sys_rename old_path new_path w) with (mem_rename old_path new_path w).
    unfold mem_rename. rewrite Hname. reflexivity.
  - rewrite (mem_is_file_exists_absent _ _ Ho Hold). reflexivity.
  - unfold fs.file_size, bind, sys. rewrite Ho.
    change (sys_stat old_path w1) with (mem_stat old_path w1). unfold mem_stat.
    rewrite resolve_absent by (unfold lookup_name; rewrite Hold; reflexivity).
    reflexivity.
  - apply (mem_is_file_exists_regular _ _ _ _ _ Hn Hnew Hperm).
  - apply (mem_file_size_regular _ _ _ _ _ Hn Hnew).
  - unfold content. rewrite (resolve_reg _ _ _ _ _ _ Hnew). reflexivity.
Qed.

End MemRuns.

(** * The further properties on the sample states *)
Section MoreRuns.
Import MemFS MemFacts Demo Samples.

Lemma copy_start_copying : copying 3 4 3 4 big old 0 copy_start 10.
Proof.
  apply (mk_copying _ _ _ _ _ _ _ _ _ 0%nat 0 1 0x1a4 0x1a4);
    try (vm_compute; reflexivity); try discriminate.
  - vm_compute. lia.
  - vm_compute. lia.
Qed.

Lemma short_start_copying :
  copying 3 4 2 4 (bytes_of "a") old 6 short_start 7.
Proof.
  apply (mk_copying _ _ _ _ _ _ _ _ _ 0%nat 0 1 0x1a4 0x1a4);
    try (vm_compute; reflexivity); try discriminate.
  - vm_compute. lia.
  - vm_compute. lia.
Qed.

(** The ten bytes of [/big] go to [/old] in three transfers of at most
    four. *)
Lemma copy_loop_completes_witness :
  ∃ w', fs.copy_loop 11 3 4 10 copy_start = Some (Ok tt, w')
        ∧ copying 3 4 3 4 big old 0 w' 0.
Proof.
  apply (copy_loop_completes 3 4 (copying 3 4 3 4 big old 0)).
  - intros w w' len r Hinv Hcall.
    destruct (mem_copy_step _ _ _ _ _ _ _ _ _ _ _ (Z.le_refl 0) Hinv Hcall)
      as (Hr & Hpos & Hinv').
    split; [lia|]. split; [exact Hpos | exact Hinv'].
  - lia.
  - exact copy_start_copying.
Defined.

(** Asked for seven bytes of the one-byte [/one], the loop is still
    running after fifty iterations. *)
Lemma copy_loop_never_ends_witness :
  fs.copy_loop 50 3 4 7 short_start = None.
Proof.
  apply (copy_loop_never_ends 3 4 (copying 3 4 2 4 (bytes_of "a") old 6)).
  - intros w w' len r Hinv Hcall.
    assert (H6 : 0 ≤ 6) by lia.
    destruct (mem_copy_step _ _ _ _ _ _ _ _ _ _ _ H6 Hinv Hcall)
      as (Hr & _ & Hinv').
    split; [lia | exact Hinv'].
  - lia.
  - exact short_start_copying.
Defined.

(** The throwing copy of [/one] on [world0] made three calls and no
    [close]; the copy that returns on the faulty device closed both
    descriptors. *)
Lemma copy_file_closes_only_on_return_witness :
  (∃ new,
     @fs.copy_file _ traced "/one" "/new" 5 (world0, [])
       = Some (Throw fstat_error,
               (final (fs.copy_file "/one" "/new" 5 world0), new))
     ∧ Forall (fun e => is_close e = false) new)
  ∧ (∃ new mid c1 c2,
       @fs.copy_file _ traced "/big" "/old" 3 (faulty 10, [])
         = Some (Ok tt, (final (fs.copy_file "/big" "/old" 3 (faulty 10)), new))
       ∧ new = ([mk_event (c_open "/big" O_RDONLY None) 3;
                 mk_event (c_open "/old" (Z.lor O_WRONLY O_CREAT) None) 4;
                 mk_event (c_fstat 3) (-1)]
                ++ mid
                ++ [mk_event (c_close 3) c1; mk_event (c_close 4) c2])%list).
Proof.
  split.
  - assert (E : fs.copy_file "/one" "/new" 5 world0
                = Some (Throw fstat_error,
                        final (fs.copy_file "/one" "/new" 5 world0)))
      by (vm_compute; reflexivity).
    destruct (copy_file_closes_only_on_return _ _ _ _ _ [] _ E)
      as (new & Hrun & Hshape).
    exists new. split; [exact Hrun | exact Hshape].
  - assert (E : fs.copy_file "/big" "/old" 3 (faulty 10)
                = Some (Ok tt, final (fs.copy_file "/big" "/old" 3 (faulty 10))))
      by (vm_compute; reflexivity).
    destruct (copy_file_closes_only_on_return _ _ _ _ _ [] _ E)
      as (new & Hrun & (rfd & wfd & c1 & c2 & mid & _ & _ & Hnew & _)).
    exists new, mid, c1, c2. split; [exact Hrun|].
    rewrite Hnew in Hrun |- *.
    assert (Hfd : rfd = 3 ∧ wfd = 4).
    { vm_compute in Hrun. injection Hrun as Hr Hw _. split; congruence. }
    destruct Hfd as [-> ->]. reflexivity.
Defined.

(** [/nope] does not exist: the two symlink checks differ.  [/lnk] is a
    symbolic link: they agree. *)
Lemma symlink_checks_differ_only_on_enoent_witness :
  (fst (fs.is_symlink_exists "/nope" world0) = Ok false
   ∧ is_throw (fst (fs.is_symlink "/nope" world0)) = true)
  ∧ fs.is_symlink_exists "/lnk" world0 = fs.is_symlink "/lnk" world0.
Proof.
  assert (Enope : sys_lstat (c_str "/nope") world0
                  = ((-1, w_junk world0), set_errno ENOENT world0))
    by reflexivity.
  assert (Elnk : sys_lstat (c_str "/lnk") world0
                 = ((0, stat_of (Lnk "/one")), world0)) by reflexivity.
  destruct (symlink_checks_differ_only_on_enoent _ _ _ _ _ Enope)
    as (Hdiff & _).
  destruct (symlink_checks_differ_only_on_enoent _ _ _ _ _ Elnk)
    as (_ & Hsame).
  destruct (Hdiff eq_refl eq_refl) as [He Hs]. split.
  - rewrite He, Hs. split; reflexivity.
  - apply Hsame. intros [Hr _]. discriminate Hr.
Defined.

(** [/one] is a regular file, not a link. *)
Lemma checks_agree_off_symlinks_witness :
  fs.is_file_exists "/one" world0 = fs.is_regular_file "/one" world0
  ∧ fs.is_directory_exists "/one" world0 = fs.is_directory "/one" world0
  ∧ fs.is_symlink_exists "/one" world0 = fs.is_symlink "/one" world0
  ∧ fs.get_permissions "/one" world0 = (Ok 0x81a4, world0)
  ∧ fs.get_file_type "/one" world0 = (Ok S_IFREG, world0).
Proof.
  assert (Es : sys_stat (c_str "/one") world0
               = ((0, stat_of (Reg 0x1a4 (bytes_of "a"))), world0))
    by reflexivity.
  assert (El : sys_lstat (c_str "/one") world0
               = ((0, stat_of (Reg 0x1a4 (bytes_of "a"))), world0))
    by reflexivity.
  assert (Hr : (0 : Z) ≠ -1) by discriminate.
  exact (checks_agree_off_symlinks _ _ _ _ _ Es El Hr).
Defined.

Lemma exists_then_size_and_permissions_witness :
  ∃ size perms,
    fs.file_size "/one" world0
      = (Ok size, snd (fs.is_file_exists "/one" world0))
    ∧ fs.get_permissions "/one" world0
      = (Ok perms, snd (fs.is_file_exists "/one" world0))
    ∧ Z.land perms S_IFMT = S_IFREG.
Proof.
  apply (exists_then_size_and_permissions "/one" world0). reflexivity.
Defined.

(** [remove_file] of a missing path: [unlink] returns [-1] and the
    operation throws. *)
Lemma throws_iff_call_fails_witness :
  ∃ r w', run_op 0 (op_remove_file "/nope") world0 = Some (r, w')
          ∧ is_throw r = true.
Proof.
  apply (throws_iff_call_fails 0 (op_remove_file "/nope") world0 true).
  reflexivity.
Defined.

Lemma mem_copy_loop_copies_witness :
  ∃ w', fs.copy_loop 11 3 4 10 copy_start = Some (Ok tt, w')
        ∧ file_data 3 w' = Some big
        ∧ file_data 4 w' = Some (bytes_of "0123456789LDOLD").
Proof.
  assert (Hmax : Z.of_nat (length big) < 2 ^ 64 - 1) by (vm_compute; reflexivity).
  destruct (mem_copy_loop_copies 3 4 3 4 big old copy_start
              copy_start_copying Hmax) as (w' & Hrun & Hs & Hd).
  exists w'. split; [exact Hrun|]. split; [exact Hs | exact Hd].
Defined.

(** With a chunk of four, [main] reads back four characters; with a
    chunk of 4096, all twelve. *)
Lemma main_reads_back_what_it_wrote_witness :
  (∃ w', test.main world0 = (Ok (4, bytes_of "Hell"), w')
         ∧ content test.file w' = Some (bytes_of "Hell"))
  ∧ (∃ w', test.main roomy = (Ok (12, list_byte_of_string test.a), w')
           ∧ content test.file w' = Some (list_byte_of_string test.a)).
Proof.
  split.
  - apply (main_reads_back_what_it_wrote world0); [left|]; reflexivity.
  - apply (main_reads_back_what_it_wrote roomy); [left|]; reflexivity.
Defined.

Lemma rename_moves_a_regular_file_witness :
  ∃ w1,
    fs.rename_path "/one" "/uno" world0 = (Ok tt, w1)
    ∧ fst (fs.is_file_exists "/one" w1) = Ok false
    ∧ is_throw (fst (fs.file_size "/one" w1)) = true
    ∧ fs.is_file_exists "/uno" w1 = (Ok true, w1)
    ∧ fs.file_size "/uno" w1 = (Ok 1, w1)
    ∧ content "/uno" w1 = Some (bytes_of "a").
Proof.
  apply (rename_moves_a_regular_file "/one" "/uno" world0 2 0x1a4 (bytes_of "a"));
    try reflexivity.
  discriminate.
Defined.

End MoreRuns.

(** * Failures: raised, translated, and the one kind that is answered *)
Section Failures.
Context {W : Type} `{OS W}.






End Failures.

Section FailureRuns.
Import MemFS Demo.



End FailureRuns.
